(** * The radio-capture pipeline: segmentation, identification, playlist

    A shallow embedding of [src/fingerprint_to_queries.py] and of
    [create_playlist_and_add_tracks] from [src/create_playlist.py], with the
    properties the specification states about them.

    Python values are embedded as [pyval], exceptions as the [Raise] branch
    of [res], and the external libraries (pydub, pyacoustid, mutagen,
    tempfile/os, spotipy) as records of functions.  An outcome of an external
    call may change from one call to the next, so these functions take the
    number of the call (the segment or query being processed) as their first
    argument. *)

From stdpp Require Import base list strings gmap pretty.

Local Open Scope string_scope.
Local Open Scope list_scope.
Local Open Scope Z_scope.

(** ** Python values and exceptions *)

#[local] Set Warnings "-register-all,-clear-no-such-hyp".

(** The values the code inspects.  [PObj truth text] is an object of any
    other class (a number, a boolean, an ID3 frame): all the code can do with
    it is test it ([truth]) and render it with [str()] ([text]). *)
Inductive pyval : Type :=
| PNone
| PStr (s : string)
| PObj (truth : bool) (text : string)
| PList (items : list pyval)
| PTuple (items : list pyval)
| PDict (entries : list (string * pyval)).

Inductive exn : Type :=
| SpotifyException
| TypeError
| AttributeError
| IndexError
| KeyError
| OSError
| OtherError.

(** A computation either returns or raises. *)
Inductive res (A : Type) : Type :=
| Ret (a : A)
| Raise (e : exn).
Arguments Ret {A} a.
Arguments Raise {A} e.

#[global] Instance res_ret : MRet res := @Ret.
#[global] Instance res_bind : MBind res := fun A B f m =>
  match m with
  | Ret a => f a
  | Raise e => Raise e
  end.

(** [try: body / except Exception: handler] *)
Definition try_except {A} (body : res A) (handler : res A) : res A :=
  match body with
  | Ret a => Ret a
  | Raise _ => handler
  end.

(** [try: body / except spotipy.exceptions.SpotifyException: handler] *)
Definition try_except_spotify {A} (body : res A) (handler : res A) : res A :=
  match body with
  | Raise SpotifyException => handler
  | other => other
  end.

(** [bool(v)] *)
Definition truthy (v : pyval) : bool :=
  match v with
  | PNone => false
  | PStr s => negb (String.eqb s "")
  | PObj truth _ => truth
  | PList items | PTuple items => negb (bool_decide (items = []))
  | PDict entries => negb (bool_decide (entries = []))
  end.

(** [a or b] *)
Definition py_or (a b : pyval) : pyval := if truthy a then a else b.

(** The value bound to [key] in the entries of a dict. *)
Fixpoint assoc (key : string) (entries : list (string * pyval)) : option pyval :=
  match entries with
  | [] => None
  | (k, v) :: rest => if String.eqb k key then Some v else assoc key rest
  end.

(** [key in d] *)
Definition has_key (key : string) (entries : list (string * pyval)) : bool :=
  match assoc key entries with Some _ => true | None => false end.

(** [d.get(key, default)] on the entries of a dict *)
Definition dict_get (entries : list (string * pyval)) (key : string) (default : pyval) : pyval :=
  match assoc key entries with Some v => v | None => default end.

(** [v.get(key, default)]: only a dict has the method. *)
Definition py_get_default (v : pyval) (key : string) (default : pyval) : res pyval :=
  match v with
  | PDict entries => Ret (dict_get entries key default)
  | _ => Raise AttributeError
  end.

(** [v.get(key)] *)
Definition py_get (v : pyval) (key : string) : res pyval := py_get_default v key PNone.

(** The characters of a [str], each as a [str] of length one. *)
Fixpoint chars (s : string) : list pyval :=
  match s with
  | EmptyString => []
  | String c rest => PStr (String c EmptyString) :: chars rest
  end.

(** [v[0]] *)
Definition py_getitem0 (v : pyval) : res pyval :=
  match v with
  | PList items | PTuple items =>
      match items with x :: _ => Ret x | [] => Raise IndexError end
  | PStr s =>
      match chars s with x :: _ => Ret x | [] => Raise IndexError end
  | PDict _ => Raise KeyError
  | PNone | PObj _ _ => Raise TypeError
  end.

(** [v[key]] for a [str] key *)
Definition py_getitem (v : pyval) (key : string) : res pyval :=
  match v with
  | PDict entries =>
      match assoc key entries with Some x => Ret x | None => Raise KeyError end
  | _ => Raise TypeError
  end.

(** The elements [for x in v] runs over. *)
Definition py_iter (v : pyval) : res (list pyval) :=
  match v with
  | PList items | PTuple items => Ret items
  | PDict entries => Ret (map (fun kv => PStr (fst kv)) entries)
  | PStr s => Ret (chars s)
  | PNone | PObj _ _ => Raise TypeError
  end.

(** [isinstance(v, list)] *)
Definition is_list (v : pyval) : bool :=
  match v with PList _ => true | _ => false end.

(** ** Audio and the silence-based segmenter *)

(** An [AudioSegment] is represented by the window of the recording it
    covers, in milliseconds.  [audio[s:e]] is the window between offsets [s]
    and [e] of [audio], as pydub gives it for [0 <= s <= e <= len(audio)];
    pydub counts a negative bound from the end and gives an empty buffer for
    [e < s], which this window arithmetic does not follow. *)
Record AudioSegment : Type := { start_ms : Z; end_ms : Z }.

Definition audio_len (audio : AudioSegment) : Z := end_ms audio - start_ms audio.

Definition audio_slice (audio : AudioSegment) (s e : Z) : AudioSegment :=
  {| start_ms := start_ms audio + s; end_ms := start_ms audio + e |}.

(** The buffer [AudioSegment.from_file] yields for a recording of [total]
    milliseconds. *)
Definition recording (total : Z) : AudioSegment := {| start_ms := 0; end_ms := total |}.

(** pydub, as used by the script.  [from_file] gives the length in
    milliseconds of the decoded recording. *)
Record Pydub : Type := {
  from_file : string -> res Z;
  detect_nonsilent : AudioSegment -> Z -> Z -> list (Z * Z);
  export : nat -> AudioSegment -> string -> res unit
}.

(** [split_on_silence], lines 55-69. *)
Definition split_on_silence (P : Pydub) (audio : AudioSegment)
    (min_silence_len silence_thresh keep_silence : Z) : list AudioSegment :=
  let non_silent_ranges := detect_nonsilent P audio min_silence_len silence_thresh in
  map (fun r : Z * Z =>
         let s := Z.max 0 (fst r - keep_silence) in
         let e := Z.min (audio_len audio) (snd r + keep_silence) in
         audio_slice audio s e)
      non_silent_ranges.

(** The segments [process_file] works on, lines 162-167: the result of
    [split_on_silence], or the whole buffer when that is empty. *)
Definition segments_of (P : Pydub) (audio : AudioSegment)
    (min_silence_len silence_thresh keep_silence : Z) : list AudioSegment :=
  let segments := split_on_silence P audio min_silence_len silence_thresh keep_silence in
  match segments with
  | [] => [audio]
  | _ => segments
  end.

(** ** The recognition service (pyacoustid) *)

(** [acoustid_installed] is false when [import acoustid] failed, so that
    the module variable [acoustid] is [None]. *)
Record AcoustID : Type := {
  acoustid_installed : bool;
  fingerprint_file : nat -> string -> res (pyval * pyval);
  lookup : nat -> string -> pyval -> pyval -> res pyval
}.

(** A candidate identity: the pair [(title, artist)]. *)
Definition metadata : Type := pyval * pyval.

(** Line 95: [results[1] if isinstance(results, tuple) and len(results) > 1
    else results]. *)
Definition candidates_of (results : pyval) : pyval :=
  match results with
  | PTuple (_ :: second :: _) => second
  | _ => results
  end.

(** The body of the loop [for r in candidates], lines 102-109, for one
    [r]: [Some] when it returns, [None] when the loop goes on. *)
Definition candidate_in (r : pyval) : res (option metadata) :=
  found ← py_get r "recordings";
  let recordings := py_or found (PList []) in
  if truthy recordings then
    rec ← py_getitem0 recordings;
    title ← py_get rec "title";
    listed ← py_get rec "artists";
    let artists := py_or listed (PList []) in
    artist ← (if truthy artists
              then first ← py_getitem0 artists; py_get first "name"
              else Ret PNone);
    if truthy title
    then Ret (Some (title, py_or artist (PStr "")))
    else Ret None
  else Ret None.

(** The loop of lines 101-109; [None] when it runs to its end. *)
Fixpoint scan_candidates (candidates : list pyval) : res (option metadata) :=
  match candidates with
  | [] => Ret None
  | r :: rest =>
      found ← candidate_in r;
      match found with
      | Some meta => Ret (Some meta)
      | None => scan_candidates rest
      end
  end.

(** Lines 99-113: the loop inside [try], [except Exception: pass], and the
    final [return None]. *)
Definition extract_candidate (candidates : pyval) : res (option metadata) :=
  try_except (items ← py_iter candidates; scan_candidates items) (Ret None).

(** [fingerprint_and_lookup], lines 72-113.  [i] is the number of the
    segment whose exported file is [segment_path]. *)
Definition fingerprint_and_lookup (A : AcoustID) (i : nat) (segment_path : string)
    (acoustid_key : option string) : res (option metadata) :=
  match acoustid_installed A, acoustid_key with
  | true, Some key =>
      match fingerprint_file A i segment_path with
      | Raise _ => Ret None
      | Ret (duration, fp) =>
          match lookup A i key fp duration with
          | Raise _ => Ret None
          | Ret results =>
              let candidates := try_except (Ret (candidates_of results)) (Ret results) in
              candidates ← candidates;
              extract_candidate candidates
          end
      end
  | _, _ => Ret None
  end.

(** ** Embedded tags (mutagen) *)

(** What [MutagenFile(path)] returns: [None], or a file object with its
    truth value and its [tags] attribute ([None] when it has none). *)
Inductive pyfile : Type :=
| FileNone
| FileObj (truth : bool) (tags : option (list (string * pyval))).

(** [mutagen_installed] is false when [from mutagen import File] failed. *)
Record Mutagen : Type := {
  mutagen_installed : bool;
  MutagenFile : string -> res pyfile
}.

(** ** Temporary files and the output file *)

(** [unlink_fails p] tells whether [os.unlink(p)] raises although [p]
    exists: the file is still open where that forbids removal, or the
    process may not remove it. *)
Record OS : Type := {
  NamedTemporaryFile : nat -> res string;
  open_output : string -> res unit;
  unlink_fails : string -> bool
}.

(** [os.unlink(p)] on the set of files on disk: it raises when [p] is not
    there or cannot be removed, and then leaves the disk as it is. *)
Definition os_unlink (O : OS) (p : string) (disk : gset string) : gset string * res unit :=
  if bool_decide (p ∈ disk) && negb (unlink_fails O p)
  then (disk ∖ {[p]}, Ret ())
  else (disk, Raise OSError).

(** The [finally] block, lines 195-201: each [os.unlink(p)] inside its own
    [try], [except Exception: pass]. *)
Fixpoint cleanup (O : OS) (temp_files : list string) (disk : gset string) : gset string :=
  match temp_files with
  | [] => disk
  | p :: rest =>
      let '(disk', unlinked) := os_unlink O p disk in
      match try_except unlinked (Ret ()) with
      | Ret _ => cleanup O rest disk'
      | Raise _ => disk'
      end
  end.

Record Env : Type := {
  pydub : Pydub;
  acoustid : AcoustID;
  mutagen : Mutagen;
  os : OS
}.

(** ** The playlist step (spotipy) *)

Record Spotify : Type := {
  user_playlist_create : string -> string -> res pyval;
  search : nat -> string -> res pyval;
  playlist_add_items : pyval -> list pyval -> res unit
}.

(** The calls made on the client, in the order they are made. *)
Inductive api_call : Type :=
| ApiCreate (user_id playlist_name : string)
| ApiSearch (q : string)
| ApiAddItems (playlist_id : pyval) (items : list pyval).

(** [c.isspace()].  A character of a [string] stands for the code point of
    the same number, so the strings of the model are the Python strings over
    code points below 256. *)
Definition is_space (c : Ascii.ascii) : bool :=
  let n := Ascii.nat_of_ascii c in
  ((9 <=? n) && (n <=? 13) || (28 <=? n) && (n <=? 32)
   || (n =? 133) || (n =? 160))%nat.

Fixpoint lstrip (s : string) : string :=
  match s with
  | EmptyString => EmptyString
  | String c rest => if is_space c then lstrip rest else s
  end.

Fixpoint rstrip (s : string) : string :=
  match s with
  | EmptyString => EmptyString
  | String c rest =>
      match rstrip rest with
      | EmptyString => if is_space c then EmptyString else String c EmptyString
      | kept => String c kept
      end
  end.

(** [s.strip()] *)
Definition py_strip (s : string) : string := rstrip (lstrip s).

(** Line 60: [not q or not q.strip()]. *)
Definition is_blank (q : string) : bool :=
  String.eqb q "" || String.eqb (py_strip q) "".

Fixpoint all_returned {A} (computations : list (res A)) : res (list A) :=
  match computations with
  | [] => Ret []
  | c :: rest => x ← c; xs ← all_returned rest; Ret (x :: xs)
  end.

(** [v] where a [str] is required *)
Definition as_str (v : pyval) : res string :=
  match v with
  | PStr s => Ret s
  | _ => Raise TypeError
  end.

Fixpoint join (sep : string) (parts : list string) : string :=
  match parts with
  | [] => ""
  | [s] => s
  | s :: rest => s +:+ sep +:+ join sep rest
  end.

(** [sep.join(names)] raises unless every element is a [str]. *)
Definition py_join (sep : string) (names : list pyval) : res string :=
  parts ← all_returned (map as_str names);
  Ret (join sep parts).

(** Lines 66-74, on the value [sp.search] returned: the URI to add, if the
    search matched. *)
Definition first_uri (result : pyval) : res (option pyval) :=
  tracks ← py_get_default result "tracks" (PDict []);
  items ← py_get_default tracks "items" (PList []);
  if truthy items then
    track ← py_getitem0 items;
    uri ← py_getitem track "uri";
    listed ← py_get_default track "artists" (PList []);
    artists ← py_iter listed;
    names ← all_returned (map (fun a => py_getitem a "name") artists);
    _ ← py_join ", " names;
    _ ← py_getitem track "name";
    Ret (Some uri)
  else Ret None.

(** The loop of lines 57-76.  [i] numbers the queries. *)
Fixpoint collect_uris (S : Spotify) (i : nat) (song_queries : list string)
    (track_uris : list pyval) : list api_call * res (list pyval) :=
  match song_queries with
  | [] => ([], Ret track_uris)
  | q :: rest =>
      if is_blank q then collect_uris S (Datatypes.S i) rest track_uris
      else
        let body :=
          result ← search S i q;
          found ← first_uri result;
          Ret (match found with
               | Some uri => track_uris ++ [uri]
               | None => track_uris
               end) in
        match try_except_spotify body (Ret track_uris) with
        | Raise e => ([ApiSearch q], Raise e)
        | Ret uris =>
            let '(log, r) := collect_uris S (Datatypes.S i) rest uris in
            (ApiSearch q :: log, r)
        end
  end.

(** [create_playlist_and_add_tracks], lines 38-85: the calls made and the
    outcome. *)
Definition create_playlist_and_add_tracks (S : Spotify) (user_id playlist_name : string)
    (song_queries : list string) : list api_call * res pyval :=
  let created := ApiCreate user_id playlist_name in
  match user_playlist_create S user_id playlist_name with
  | Raise e => ([created], Raise e)
  | Ret playlist =>
      let '(log, r) := collect_uris S 0 song_queries [] in
      match r with
      | Raise e => (created :: log, Raise e)
      | Ret [] => (created :: log, Ret playlist)
      | Ret track_uris =>
          match py_getitem playlist "id" with
          | Raise e => (created :: log, Raise e)
          | Ret playlist_id =>
              (created :: log ++ [ApiAddItems playlist_id track_uris],
               _ ← playlist_add_items S playlist_id track_uris; Ret playlist)
          end
      end
  end.

(** ** Identity resolution and the orchestrator *)

Section Pipeline.

(** [str()] of a list, a tuple or a dict: Python's rendering of containers,
    left open. *)
Variable container_str : pyval -> string.

(** [str(v)], also what an f-string puts for [{v}]. *)
Definition py_str (v : pyval) : string :=
  match v with
  | PNone => "None"
  | PStr s => s
  | PObj _ text => text
  | PList _ | PTuple _ | PDict _ => container_str v
  end.

(** Line 121: the tags of [m], unless [not m or not getattr(m, "tags", None)]. *)
Definition usable_tags (m : pyfile) : option (list (string * pyval)) :=
  match m with
  | FileObj true (Some (entry :: entries)) => Some (entry :: entries)
  | _ => None
  end.

(** Lines 124-134: the value chosen for the title. *)
Definition selected_title (tags : list (string * pyval)) : pyval :=
  let title := if has_key "TIT2" tags then PStr (py_str (dict_get tags "TIT2" PNone)) else PNone in
  if truthy title then title
  else py_or (dict_get tags "title" PNone) (dict_get tags "TIT2" PNone).

(** Lines 125-136: the value chosen for the artist. *)
Definition selected_artist (tags : list (string * pyval)) : pyval :=
  let artist := if has_key "TPE1" tags then PStr (py_str (dict_get tags "TPE1" PNone)) else PNone in
  if truthy artist then artist
  else py_or (dict_get tags "artist" PNone) (dict_get tags "TPE1" PNone).

(** Lines 138-141: [if isinstance(v, list): v = v[0]]. *)
Definition normalize (v : pyval) : res pyval :=
  if is_list v then py_getitem0 v else Ret v.

(** Lines 124-143 of [read_tags], on the tags of the file. *)
Definition tags_metadata (tags : list (string * pyval)) : res (option metadata) :=
  title ← normalize (selected_title tags);
  artist ← normalize (selected_artist tags);
  if truthy title
  then Ret (Some (PStr (py_str title),
                  PStr (if truthy artist then py_str artist else "")))
  else Ret None.

(** [read_tags], lines 116-145. *)
Definition read_tags (M : Mutagen) (path : string) : res (option metadata) :=
  if mutagen_installed M then
    try_except
      (m ← MutagenFile M path;
       match usable_tags m with
       | None => Ret None
       | Some tags => tags_metadata tags
       end)
      (Ret None)
  else Ret None.

(** The placeholder of line 154. *)
Definition placeholder (index : Z) : pyval :=
  PStr ("Unknown Track " +:+ pretty (index + 1)).

(** [make_query_from_metadata], lines 148-154.  A [meta] that is not [None]
    is a pair, hence true. *)
Definition make_query_from_metadata (meta : option metadata) (index : Z) : pyval :=
  match meta with
  | Some (title, artist) =>
      if truthy title then
        if truthy artist
        then PStr (py_str title +:+ " - " +:+ py_str artist)
        else title
      else placeholder index
  | None => placeholder index
  end.

(** [if acoustid_key:] *)
Definition key_given (acoustid_key : option string) : bool :=
  match acoustid_key with
  | Some key => negb (String.eqb key "")
  | None => false
  end.

(** The calls to the two tiers, with the path each is given. *)
Inductive call : Type :=
| CallFingerprint (path : string)
| CallReadTags (path : string).

(** Lines 180-183: the fingerprint tier for segment [i], exported at
    [tf_name]. *)
Definition fingerprint_tier (E : Env) (acoustid_key : option string) (i : nat)
    (tf_name : string) : list call * res (option metadata) :=
  if key_given acoustid_key
  then ([CallFingerprint tf_name], fingerprint_and_lookup (acoustid E) i tf_name acoustid_key)
  else ([], Ret None).

(** Lines 185-189: the tag tier, given what the fingerprint tier left in
    [meta]. *)
Definition tag_tier (E : Env) (input_path : string) (i : nat)
    (meta : option metadata) : list call * res (option metadata) :=
  match meta with
  | Some _ => ([], Ret meta)
  | None =>
      if bool_decide (i = 0%nat)
      then ([CallReadTags input_path],
            tag_meta ← read_tags (mutagen E) input_path;
            Ret (match tag_meta with Some _ => tag_meta | None => meta end))
      else ([], Ret meta)
  end.

(** Lines 180-191: the query of segment [i]. *)
Definition resolve_segment (E : Env) (input_path : string) (acoustid_key : option string)
    (i : nat) (tf_name : string) : list call * res pyval :=
  let '(log1, looked_up) := fingerprint_tier E acoustid_key i tf_name in
  match looked_up with
  | Raise e => (log1, Raise e)
  | Ret meta =>
      let '(log2, tagged) := tag_tier E input_path i meta in
      (log1 ++ log2,
       meta ← tagged; Ret (make_query_from_metadata meta (Z.of_nat i)))
  end.

(** What the loop of [process_file] has built so far, and the files on
    disk. *)
Record loop_state : Type := {
  queries : list pyval;
  temp_files : list string;
  disk : gset string;
  calls : list call
}.

(** The loop of lines 172-193, from segment number [i] on.  A step that
    raises leaves the loop with the state reached. *)
Fixpoint process_segments (E : Env) (input_path : string) (acoustid_key : option string)
    (i : nat) (segments : list AudioSegment) (st : loop_state) : loop_state * res unit :=
  match segments with
  | [] => (st, Ret ())
  | seg :: rest =>
      match NamedTemporaryFile (os E) i with
      | Raise e => (st, Raise e)
      | Ret tf_name =>
          let st := {| queries := queries st;
                       temp_files := temp_files st ++ [tf_name];
                       disk := {[tf_name]} ∪ disk st;
                       calls := calls st |} in
          match export (pydub E) i seg tf_name with
          | Raise e => (st, Raise e)
          | Ret _ =>
              let '(log, resolved) := resolve_segment E input_path acoustid_key i tf_name in
              let st := {| queries := queries st;
                           temp_files := temp_files st;
                           disk := disk st;
                           calls := calls st ++ log |} in
              match resolved with
              | Raise e => (st, Raise e)
              | Ret q =>
                  process_segments E input_path acoustid_key (S i) rest
                    {| queries := queries st ++ [q];
                       temp_files := temp_files st;
                       disk := disk st;
                       calls := calls st |}
              end
          end
      end
  end.

Definition newline : string := String (Ascii.ascii_of_nat 10) EmptyString.

(** Lines 205-206: the lines written; [q + "\n"] raises unless [q] is a
    [str].  Writing a line of text is taken to succeed: an encoding or
    input/output error of [fh.write] is not followed. *)
Fixpoint write_lines (qs : list pyval) : list string * res unit :=
  match qs with
  | [] => ([], Ret ())
  | q :: rest =>
      match as_str q with
      | Raise e => ([], Raise e)
      | Ret s =>
          let '(lines, r) := write_lines rest in
          ((s +:+ newline) :: lines, r)
      end
  end.

(** A run of [process_file]: what it returns or raises, the files left on
    disk, the lines written to the output file when it was opened, the
    temporary files created and the tier calls made. *)
Record run : Type := {
  outcome : res (list pyval);
  final_disk : gset string;
  written : option (list string);
  created : list string;
  trace : list call
}.

(** [process_file], lines 157-209, started with [disk0] on disk. *)
Definition process_file (E : Env) (input_path output_path : string)
    (acoustid_key : option string) (min_silence_len silence_thresh keep_silence : Z)
    (disk0 : gset string) : run :=
  match from_file (pydub E) input_path with
  | Raise e =>
      {| outcome := Raise e; final_disk := disk0; written := None;
         created := []; trace := [] |}
  | Ret total =>
      let audio := recording total in
      let segments :=
        segments_of (pydub E) audio min_silence_len silence_thresh keep_silence in
      let '(st, looped) :=
        process_segments E input_path acoustid_key 0 segments
          {| queries := []; temp_files := []; disk := disk0; calls := [] |} in
      let disk1 := cleanup (os E) (temp_files st) (disk st) in
      match looped with
      | Raise e =>
          {| outcome := Raise e; final_disk := disk1; written := None;
             created := temp_files st; trace := calls st |}
      | Ret _ =>
          match open_output (os E) output_path with
          | Raise e =>
              {| outcome := Raise e; final_disk := disk1; written := None;
                 created := temp_files st; trace := calls st |}
          | Ret _ =>
              let '(lines, wrote) := write_lines (queries st) in
              {| outcome := (_ ← wrote; Ret (queries st)); final_disk := disk1;
                 written := Some lines; created := temp_files st; trace := calls st |}
          end
      end
  end.

(** ** The schema of recognition responses *)

Definition text_or_none (v : pyval) : bool :=
  match v with
  | PNone | PStr _ => true
  | _ => false
  end.

(** Every [title] and every [name] in [v] is a [str] or [None], as the
    recognition service documents them. *)
Fixpoint text_fields (v : pyval) : bool :=
  match v with
  | PList items | PTuple items => forallb text_fields items
  | PDict entries =>
      forallb (fun kv : string * pyval =>
                 let '(k, x) := kv in
                 (if String.eqb k "title" || String.eqb k "name"
                  then text_or_none x else true)
                 && text_fields x)
              entries
  | _ => true
  end.

(** The responses to the lookups for segment [i] keep to the schema. *)
Definition honours_schema (A : AcoustID) (i : nat) : Prop :=
  ∀ key fp duration results,
    lookup A i key fp duration = Ret results → text_fields results = true.

(** A response of the documented shape: a list of results, each with its
    recordings, each with an optional title and its artists, each with an
    optional name. *)
Record artist_entry : Type := { artist_name : option string }.
Record recording_entry : Type := {
  rec_title : option string;
  rec_artists : list artist_entry
}.
Record result_entry : Type := { res_recordings : list recording_entry }.

Definition optional_field (k : string) (v : option string) : list (string * pyval) :=
  match v with
  | Some s => [(k, PStr s)]
  | None => []
  end.

Definition encode_artist (a : artist_entry) : pyval :=
  PDict (optional_field "name" (artist_name a)).

Definition encode_recording (rec : recording_entry) : pyval :=
  PDict (optional_field "title" (rec_title rec)
         ++ [("artists", PList (map encode_artist (rec_artists rec)))]).

Definition encode_result (r : result_entry) : pyval :=
  PDict [("recordings", PList (map encode_recording (res_recordings r)))].

Definition encode_response (results : list result_entry) : pyval :=
  PList (map encode_result results).

(** The name of the first listed artist, the empty string when there is
    none. *)
Definition first_artist (rec : recording_entry) : string :=
  match rec_artists rec with
  | a :: _ => default "" (artist_name a)
  | [] => ""
  end.

(** The candidate a recording stands for. *)
Definition recording_candidate (rec : recording_entry) : metadata :=
  (PStr (default "" (rec_title rec)), PStr (first_artist rec)).

(** The first recording of the first result that has a recording. *)
Fixpoint first_with_recording (results : list result_entry) : option recording_entry :=
  match results with
  | [] => None
  | r :: rest =>
      match res_recordings r with
      | rec :: _ => Some rec
      | [] => first_with_recording rest
      end
  end.

Definition titled (rec : recording_entry) : bool :=
  match rec_title rec with
  | Some t => negb (String.eqb t "")
  | None => false
  end.

(** The first recording of the first result whose first recording has a
    title. *)
Fixpoint first_titled (results : list result_entry) : option recording_entry :=
  match results with
  | [] => None
  | r :: rest =>
      match res_recordings r with
      | rec :: _ => if titled rec then Some rec else first_titled rest
      | [] => first_titled rest
      end
  end.

(** ** Failures forced on one segment *)





(** ** Notions used in the statements *)

(** A candidate made of text, with a title that is not empty. *)
Definition text_candidate (meta : metadata) : Prop :=
  ∃ title artist, meta = (PStr title, PStr artist) ∧ title ≠ "".

(** One turn of the loop for segment [i]: the temporary file, the export,
    the query. *)
Definition segment_query (E : Env) (input_path : string) (key : option string)
    (i : nat) (seg : AudioSegment) : res pyval :=
  tf_name ← NamedTemporaryFile (os E) i;
  _ ← export (pydub E) i seg tf_name;
  (resolve_segment E input_path key i tf_name).2.

(** The queries of the segments from number [i] on, in order. *)
Fixpoint queries_from (E : Env) (input_path : string) (key : option string)
    (i : nat) (segments : list AudioSegment) : res (list pyval) :=
  match segments with
  | [] => Ret []
  | seg :: rest =>
      q ← segment_query E input_path key i seg;
      qs ← queries_from E input_path key (S i) rest;
      Ret (q :: qs)
  end.

Definition is_text (q : pyval) : Prop := ∃ s, q = PStr s.

(** Every character of [s] is white space. *)
Fixpoint only_spaces (s : string) : bool :=
  match s with
  | EmptyString => true
  | String c rest => is_space c && only_spaces rest
  end.

(** A search that raises a [SpotifyException], or returns a result the
    function can read. *)
Definition search_behaves (sp : Spotify) (i : nat) (q : string) : Prop :=
  search sp i q = Raise SpotifyException
  ∨ ∃ result found, search sp i q = Ret result ∧ first_uri result = Ret found.

(** The queries searched for, in the order of the calls. *)
Definition searched (log : list api_call) : list string :=
  omap (fun c => match c with ApiSearch q => Some q | _ => None end) log.

(** The extraction as the specification words it: a candidate returned is
    that of the first result that has a recording. *)
Definition specified_extraction : Prop :=
  ∀ results meta,
    extract_candidate (encode_response results) = Ret (Some meta) →
    ∃ rec, first_with_recording results = Some rec ∧ meta = recording_candidate rec.

(** The query format as the specification words it: every candidate gives
    "title - artist", or the title alone when the artist is empty. *)
Definition specified_query_format : Prop :=
  ∀ title artist i, 0 ≤ i →
    make_query_from_metadata (Some (PStr title, PStr artist)) i
    = PStr (if String.eqb artist "" then title else title +:+ " - " +:+ artist).

(** ** A sample run

    A capture of ten seconds with a silent gap from 4000 to 5500 ms.  The
    service recognises the first segment and knows nothing of the second;
    the file carries a title tag. *)

Definition render (v : pyval) : string := "<container>".

Definition imagine : recording_entry :=
  {| rec_title := Some "Imagine";
     rec_artists := [ {| artist_name := Some "John Lennon" |} ] |}.

Definition sample_pydub : Pydub :=
  {| from_file := fun _ => Ret 10000;
     detect_nonsilent := fun _ _ _ => [(0, 4000); (5500, 10000)];
     export := fun _ _ _ => Ret () |}.

Definition sample_acoustid : AcoustID :=
  {| acoustid_installed := true;
     fingerprint_file := fun _ _ => Ret (PObj true "180", PStr "AQADtEmU");
     lookup := fun i _ _ _ =>
       match i with
       | O => Ret (encode_response [ {| res_recordings := [imagine] |} ])
       | _ => Ret (PList [])
       end |}.

Definition sample_mutagen : Mutagen :=
  {| mutagen_installed := true;
     MutagenFile := fun _ =>
       Ret (FileObj true (Some [("title", PList [PStr "Hey Jude"])])) |}.

Definition sample_os : OS :=
  {| NamedTemporaryFile := fun i => Ret ("/tmp/seg" +:+ pretty i +:+ ".wav");
     open_output := fun _ => Ret ();
     unlink_fails := fun _ => false |}.

Definition sample_env : Env :=
  {| pydub := sample_pydub; acoustid := sample_acoustid;
     mutagen := sample_mutagen; os := sample_os |}.

(** A recording in which silence detection finds no sound at all. *)
Definition silent_pydub : Pydub :=
  {| from_file := fun _ => Ret 10000;
     detect_nonsilent := fun _ _ _ => [];
     export := fun _ _ _ => Ret () |}.

(** A recording whose sound starts 50 ms in. *)
Definition late_pydub : Pydub :=
  {| from_file := fun _ => Ret 10000;
     detect_nonsilent := fun _ _ _ => [(50, 4000)];
     export := fun _ _ _ => Ret () |}.

(** An MP3 file whose title frame is empty. *)
Definition untitled_mutagen : Mutagen :=
  {| mutagen_installed := true;
     MutagenFile := fun _ =>
       Ret (FileObj true (Some [("TIT2", PObj true ""); ("TPE1", PObj true "Queen")])) |}.

(** A response whose first result has a recording without title. *)
Definition untitled_first : list result_entry :=
  [ {| res_recordings :=
         [ {| rec_title := None; rec_artists := [ {| artist_name := Some "The Beatles" |} ] |} ] |};
    {| res_recordings := [ {| rec_title := Some "Hey Jude"; rec_artists := [] |} ] |} ].

(** A client for which the search for the third query of the list fails
    and the later ones match nothing. *)
Definition sample_spotify : Spotify :=
  {| user_playlist_create := fun _ name => Ret (PDict [("id", PStr "pl1"); ("name", PStr name)]);
     search := fun i _ =>
       match i with
       | 0%nat =>
           Ret (PDict [("tracks", PDict [("items",
                  PList [PDict [("uri", PStr "spotify:track:1");
                                ("name", PStr "Imagine");
                                ("artists", PList [PDict [("name", PStr "John Lennon")]])]])])])
       | 2%nat => Raise SpotifyException
       | _ => Ret (PDict [("tracks", PDict [("items", PList [])])])
       end;
     playlist_add_items := fun _ _ => Ret () |}.

(** ** The entry point of the script *)

(** The parsed command line, as [parse_args] returns it. *)
Record Args : Type := {
  arg_input : string;
  arg_output : string;
  arg_acoustid_key : option string;
  arg_min_silence_ms : Z;
  arg_silence_thresh_db : Z;
  arg_keep_silence_ms : Z;
  arg_verbose : bool
}.

(** A call of [main]: the exit code it returns, unless it raises, the lines
    it prints, and the run of [process_file] when there was one. *)
Record main_run : Type := {
  exit_code : res Z;
  printed : list string;
  processed : option run
}.

(** [main], lines 224-241, on the parsed arguments; [path_exists] is
    [os.path.exists]. *)
Definition main (E : Env) (path_exists : string -> bool) (args : Args)
    (disk0 : gset string) : main_run :=
  if path_exists (arg_input args) then
    let r := process_file E (arg_input args) (arg_output args) (arg_acoustid_key args)
               (arg_min_silence_ms args) (arg_silence_thresh_db args)
               (arg_keep_silence_ms args) disk0 in
    match outcome r with
    | Raise e => {| exit_code := Raise e; printed := []; processed := Some r |}
    | Ret qs => {| exit_code := Ret 0; printed := map py_str qs; processed := Some r |}
    end
  else {| exit_code := Ret 2; printed := []; processed := None |}.

(** ** The ShazamKit wrapper ([fingerprint_shazam_queries.py]) *)

(** The characters at which [str.splitlines] breaks, among the code points
    below 256. *)
Definition is_linebreak (c : Ascii.ascii) : bool :=
  let n := Ascii.nat_of_ascii c in
  ((10 <=? n) && (n <=? 13) || (28 <=? n) && (n <=? 30) || (n =? 133))%nat.

(** [s.splitlines()], with [cur] the line read so far.  A carriage return
    followed by a line feed is one break; no empty line is added after the
    last break. *)
Fixpoint splitlines_from (cur : string) (s : string) : list string :=
  match s with
  | EmptyString => match cur with EmptyString => [] | _ => [cur] end
  | String c rest =>
      if is_linebreak c then
        cur :: match rest with
               | String d rest' =>
                   if (Ascii.nat_of_ascii c =? 13)%nat && (Ascii.nat_of_ascii d =? 10)%nat
                   then splitlines_from EmptyString rest'
                   else splitlines_from EmptyString rest
               | EmptyString => splitlines_from EmptyString rest
               end
      else splitlines_from (cur +:+ String c EmptyString) rest
  end.

Definition py_splitlines (s : string) : list string := splitlines_from EmptyString s.

(** What [subprocess.run] returns. *)
Record completed_process : Type := {
  returncode : Z;
  stdout : string;
  stderr : string
}.

(** The machine the wrapper runs on.  [path_exists_before] answers
    [os.path.exists] when [main] starts, [path_exists_built] after the build
    was run. *)
Record Host : Type := {
  platform_system : string;
  getcwd : string;
  path_exists_before : string -> bool;
  which : string -> option string;
  swift_build : string -> res unit;
  path_exists_built : string -> bool;
  run_process : string -> string -> res completed_process;
  open_for_writing : string -> res unit
}.

Definition starts_with_sep (s : string) : bool :=
  match s with
  | String c _ => (Ascii.nat_of_ascii c =? 47)%nat
  | EmptyString => false
  end.

Fixpoint ends_with_sep (s : string) : bool :=
  match s with
  | EmptyString => false
  | String c EmptyString => (Ascii.nat_of_ascii c =? 47)%nat
  | String _ rest => ends_with_sep rest
  end.

(** One step of [os.path.join] (posixpath): a component that starts with
    the separator replaces the path, otherwise it is appended, after a
    separator unless the path is empty or ends with one. *)
Definition join_component (path b : string) : string :=
  if starts_with_sep b then b
  else if String.eqb path "" || ends_with_sep path then path +:+ b
  else path +:+ "/" +:+ b.

(** [os.path.join(a, *p)] *)
Definition os_path_join (a : string) (p : list string) : string :=
  foldl join_component a p.

(** [build_shazam_cli], lines 31-49.  A [RuntimeError] is rendered as
    [OtherError]. *)
Definition build_shazam_cli (H : Host) (workdir : string) : res string :=
  let pkg_dir := os_path_join workdir ["tools"; "shazam_cli"] in
  match which H "swift" with
  | None => Raise OtherError
  | Some _ =>
      _ ← swift_build H pkg_dir;
      let exe_path := os_path_join pkg_dir [".build"; "release"; "shazamcli"] in
      if path_exists_built H exe_path then Ret exe_path else Raise OtherError
  end.

(** [run_shazam_cli], lines 52-59. *)
Definition run_shazam_cli (H : Host) (exe_path input_path : string) : res (list string) :=
  proc ← run_process H exe_path input_path;
  if returncode proc =? 0
  then Ret (map py_strip
              (List.filter (fun l => negb (String.eqb (py_strip l) ""))
                           (py_splitlines (stdout proc))))
  else Raise OtherError.

Record shazam_args : Type := {
  sh_input : string;
  sh_output : string;
  sh_rebuild : bool
}.

(** A call of the wrapper's [main]: the exit code, unless it raises; whether
    the build and the tool were run; the lines written to the output file
    when it was opened. *)
Record shazam_run : Type := {
  sh_exit : res Z;
  sh_built : bool;
  sh_ran : bool;
  sh_written : option (list string)
}.

(** The wrapper's [main], lines 70-106, on the parsed arguments. *)
Definition shazam_main (H : Host) (args : shazam_args) : shazam_run :=
  if negb (String.eqb (platform_system H) "Darwin") then
    {| sh_exit := Ret 3; sh_built := false; sh_ran := false; sh_written := None |}
  else if negb (path_exists_before H (sh_input args)) then
    {| sh_exit := Ret 2; sh_built := false; sh_ran := false; sh_written := None |}
  else
    let exe_path :=
      os_path_join (getcwd H) ["tools"; "shazam_cli"; ".build"; "release"; "shazamcli"] in
    let building := sh_rebuild args || negb (path_exists_before H exe_path) in
    let located :=
      try_except
        (found ← (if building then build_shazam_cli H (getcwd H) else Ret exe_path);
         Ret (Some found))
        (Ret None) in
    match located with
    | Raise e =>
        {| sh_exit := Raise e; sh_built := building; sh_ran := false; sh_written := None |}
    | Ret None =>
        {| sh_exit := Ret 4; sh_built := building; sh_ran := false; sh_written := None |}
    | Ret (Some exe_path) =>
        match try_except (lines ← run_shazam_cli H exe_path (sh_input args); Ret (Some lines))
                         (Ret None) with
        | Raise e =>
            {| sh_exit := Raise e; sh_built := building; sh_ran := true; sh_written := None |}
        | Ret None =>
            {| sh_exit := Ret 5; sh_built := building; sh_ran := true; sh_written := None |}
        | Ret (Some lines) =>
            match open_for_writing H (sh_output args) with
            | Raise e =>
                {| sh_exit := Raise e; sh_built := building; sh_ran := true;
                   sh_written := None |}
            | Ret _ =>
                {| sh_exit := Ret 0; sh_built := building; sh_ran := true;
                   sh_written := Some (map (fun l => l +:+ newline) lines) |}
            end
        end
    end.

(** ** More notions used in the statements *)

(** The URIs [create_playlist_and_add_tracks] collects: that of the first
    item of each search that matched, in the order of the queries. *)
Fixpoint matched_uris (sp : Spotify) (i : nat) (song_queries : list string) : list pyval :=
  match song_queries with
  | [] => []
  | q :: rest =>
      (if is_blank q then []
       else match search sp i q with
            | Ret result =>
                match first_uri result with
                | Ret (Some uri) => [uri]
                | _ => []
                end
            | Raise _ => []
            end)
      ++ matched_uris sp (S i) rest
  end.

(** A search that fails with another exception than [SpotifyException], or
    whose result cannot be read. *)
Definition search_breaks (sp : Spotify) (i : nat) (q : string) (e : exn) : Prop :=
  (search sp i q = Raise e ∧ e ≠ SpotifyException)
  ∨ ∃ result, search sp i q = Ret result ∧ first_uri result = Raise e.

(** [s] has a character at which [str.splitlines] breaks. *)
Fixpoint has_linebreak (s : string) : bool :=
  match s with
  | EmptyString => false
  | String c rest => is_linebreak c || has_linebreak rest
  end.

Definition is_dict (v : pyval) : bool :=
  match v with PDict _ => true | _ => false end.

Definition is_read_tags (c : call) : bool :=
  match c with CallReadTags _ => true | CallFingerprint _ => false end.

(** A second sample: the tool's output with blank lines, spaces and both
    kinds of line ends. *)
Definition sample_stdout : string :=
  "Imagine - John Lennon" +:+ newline +:+ "   " +:+ newline
  +:+ "  Hey Jude - The Beatles " +:+ String (Ascii.ascii_of_nat 13) newline +:+ newline.

Definition sample_host : Host :=
  {| platform_system := "Darwin";
     getcwd := "/Users/dj/radio";
     path_exists_before := fun p => String.eqb p "capture.mp3";
     which := fun _ => Some "/usr/bin/swift";
     swift_build := fun _ => Ret ();
     path_exists_built := fun _ => true;
     run_process := fun _ _ => Ret {| returncode := 0; stdout := sample_stdout; stderr := "" |};
     open_for_writing := fun _ => Ret () |}.

Definition sample_args : Args :=
  {| arg_input := "capture.mp3"; arg_output := "queries.txt";
     arg_acoustid_key := Some "key"; arg_min_silence_ms := 1200;
     arg_silence_thresh_db := -40; arg_keep_silence_ms := 300;
     arg_verbose := false |}.

(** An MP3 file with ID3 frames beside generic keys. *)
Definition id3_mutagen : Mutagen :=
  {| mutagen_installed := true;
     MutagenFile := fun _ =>
       Ret (FileObj true
              (Some [("title", PStr "Track 01"); ("artist", PList [PStr "Various"]);
                     ("TIT2", PObj true "Bohemian Rhapsody"); ("TPE1", PObj true "Queen")])) |}.

(** A client whose connection drops at the second query. *)
Definition broken_spotify : Spotify :=
  {| user_playlist_create := user_playlist_create sample_spotify;
     search := fun i q =>
       match i with
       | 1%nat => Raise OSError
       | _ => search sample_spotify 0 q
       end;
     playlist_add_items := playlist_add_items sample_spotify |}.

(** A service that answers with a dict, as a decoded JSON object. *)
Definition dict_acoustid : AcoustID :=
  {| acoustid_installed := true;
     fingerprint_file := fun _ _ => Ret (PObj true "180", PStr "AQADtEmU");
     lookup := fun _ _ _ _ =>
       Ret (PDict [("status", PStr "ok");
                   ("results", encode_response [ {| res_recordings := [imagine] |} ])]) |}.

(** ** Runs on which something goes wrong *)



(** A service whose response gives the title of the recording as the
    number 123, [[{"recordings": [{"title": 123}]}]]. *)
Definition numbered_acoustid : AcoustID :=
  {| acoustid_installed := true;
     fingerprint_file := fun _ _ => Ret (PObj true "180", PStr "AQADtEmU");
     lookup := fun _ _ _ _ =>
       Ret (PList [PDict [("recordings", PList [PDict [("title", PObj true "123")]])]]) |}.

Definition numbered_env : Env :=
  {| pydub := sample_pydub; acoustid := numbered_acoustid;
     mutagen := sample_mutagen; os := sample_os |}.



(** A system that refuses to remove the first temporary file. *)
Definition stubborn_os : OS :=
  {| NamedTemporaryFile := NamedTemporaryFile sample_os;
     open_output := open_output sample_os;
     unlink_fails := fun p => String.eqb p "/tmp/seg0.wav" |}.

Definition stubborn_env : Env :=
  {| pydub := sample_pydub; acoustid := sample_acoustid;
     mutagen := sample_mutagen; os := stubborn_os |}.

(** A client that finds every track and loses its connection at the second
    search. *)
Definition offline_spotify : Spotify :=
  {| user_playlist_create := user_playlist_create sample_spotify;
     search := fun i q =>
       match i with
       | 1%nat => Raise OSError
       | _ => search sample_spotify 0 q
       end;
     playlist_add_items := fun _ _ => Ret () |}.

(** A client that finds every track and is refused when it adds them. *)
Definition refused_spotify : Spotify :=
  {| user_playlist_create := user_playlist_create sample_spotify;
     search := fun _ q => search sample_spotify 0 q;
     playlist_add_items := fun _ _ => Raise SpotifyException |}.


(** Cleanup as the specification words it: no temporary file a run created
    is on disk when the run ends. *)
Definition specified_cleanup : Prop :=
  ∀ E input_path output_path key msl thresh keep disk0 p,
    p ∈ created (process_file E input_path output_path key msl thresh keep disk0) →
    p ∉ final_disk (process_file E input_path output_path key msl thresh keep disk0).

(** The playlist step as the specification words it: once the playlist is
    created the function returns it, whatever the queries do. *)
Definition specified_return : Prop :=
  ∀ sp user_id playlist_name song_queries playlist,
    user_playlist_create sp user_id playlist_name = Ret playlist →
    (create_playlist_and_add_tracks sp user_id playlist_name song_queries).2 = Ret playlist.

(** * Properties *)

(** ** Properties of the segmenter *)

Lemma split_on_silence_ranges P total msl thresh keep :
  split_on_silence P (recording total) msl thresh keep
  = map (fun span : Z * Z =>
           {| start_ms := Z.max 0 (span.1 - keep);
              end_ms := Z.min total (span.2 + keep) |})
        (detect_nonsilent P (recording total) msl thresh).
Proof.
  unfold split_on_silence. apply map_ext. intros [a b].
  unfold audio_slice, audio_len, recording. cbn. f_equal; lia.
Qed.


Lemma segments_of_nonempty P audio msl thresh keep :
  segments_of P audio msl thresh keep ≠ [].
Proof.
  unfold segments_of.
  destruct (split_on_silence P audio msl thresh keep); discriminate.
Qed.

(** C4. When silence detection reports no non-silent span, the segments
    worked on are the whole buffer and nothing else; the same holds when it
    reports the whole buffer as the one non-silent span (no silence found)
    and the padding is not negative; and in every case there is at least one
    segment. *)
Theorem degenerate_segmentation (P : Pydub) (total msl thresh keep : Z) :
  (detect_nonsilent P (recording total) msl thresh = [] →
   segments_of P (recording total) msl thresh keep = [recording total])
  ∧ (0 ≤ keep → 0 ≤ total →
     detect_nonsilent P (recording total) msl thresh = [(0, total)] →
     segments_of P (recording total) msl thresh keep = [recording total])
  ∧ (1 ≤ length (segments_of P (recording total) msl thresh keep))%nat.
Proof.
  split; [|split].
  - intros Hnone. unfold segments_of, split_on_silence. by rewrite Hnone.
  - intros Hkeep Htotal Hone. unfold segments_of, split_on_silence.
    rewrite Hone. cbn. unfold audio_slice, audio_len, recording. cbn.
    f_equal. f_equal; lia.
  - pose proof (segments_of_nonempty P (recording total) msl thresh keep) as Hne.
    destruct (segments_of P (recording total) msl thresh keep); [done | cbn; lia].
Qed.

(** C5. Each detected span [(start, end)] is emitted as the range from
    [max 0 (start - keep)] to [min total (end + keep)], so that no emitted
    range starts below 0 or ends beyond the buffer; a span starting at 50
    padded by 300 starts at 0. *)
Theorem padding_clamp (P : Pydub) (total msl thresh keep : Z) :
  split_on_silence P (recording total) msl thresh keep
  = map (fun span : Z * Z =>
           {| start_ms := Z.max 0 (span.1 - keep);
              end_ms := Z.min total (span.2 + keep) |})
        (detect_nonsilent P (recording total) msl thresh)
  ∧ (∀ seg, seg ∈ split_on_silence P (recording total) msl thresh keep →
            0 ≤ start_ms seg ∧ end_ms seg ≤ total)
  ∧ (∀ fin spans, detect_nonsilent P (recording total) msl thresh = (50, fin) :: spans →
       keep = 300 →
       start_ms <$> head (split_on_silence P (recording total) msl thresh keep) = Some 0).
Proof.
  pose proof (split_on_silence_ranges P total msl thresh keep) as Hmap.
  split; [exact Hmap | split].
  - intros seg. rewrite Hmap. intros ([a b] & -> & _)%list_elem_of_fmap. cbn. lia.
  - intros fin spans Hdet ->. rewrite Hmap, Hdet. reflexivity.
Qed.

(** ** Properties of the fingerprint tier *)

Lemma candidate_in_encoded (r : result_entry) :
  candidate_in (encode_result r)
  = Ret (match res_recordings r with
         | rec :: _ => if titled rec then Some (recording_candidate rec) else None
         | [] => None
         end).
Proof.
  destruct r as [[|[title artists] recs]]; [reflexivity|].
  unfold titled, recording_candidate, first_artist. cbn.
  destruct title as [t|]; cbn.
  - destruct artists as [|[[n|]] artists]; cbn;
      unfold py_or; cbn; destruct t; try destruct n; reflexivity.
  - destruct artists as [|[[n|]] artists]; reflexivity.
Qed.

Lemma scan_candidates_encoded (results : list result_entry) :
  scan_candidates (map encode_result results)
  = Ret (recording_candidate <$> first_titled results).
Proof.
  induction results as [|r results IH]; [reflexivity|].
  cbn [map scan_candidates]. rewrite candidate_in_encoded. cbn.
  destruct (res_recordings r) as [|rec recs]; [exact IH|].
  destruct (titled rec); [reflexivity | exact IH].
Qed.

(** C7, as amended.  On a response of the documented shape, the candidate
    is that of the first result whose first recording has a non-empty title:
    that title, with the name of the recording's first listed artist, or the
    empty string when no artist is listed or the name is missing.  Results
    without recordings, and results whose first recording has no title, are
    passed over.  A first result holding the recording "Imagine" by "John
    Lennon" gives the query "Imagine - John Lennon". *)
Theorem fingerprint_extraction (results : list result_entry) :
  extract_candidate (encode_response results)
  = Ret (recording_candidate <$> first_titled results)
  ∧ (∀ i,
       let imagine :=
         {| rec_title := Some "Imagine";
            rec_artists := [ {| artist_name := Some "John Lennon" |} ] |} in
       ∃ meta,
         extract_candidate
           (encode_response ({| res_recordings := [imagine] |} :: results)) = Ret (Some meta)
         ∧ make_query_from_metadata (Some meta) i = PStr "Imagine - John Lennon").
Proof.
  assert (Hall : ∀ rs, extract_candidate (encode_response rs)
                       = Ret (recording_candidate <$> first_titled rs)).
  { intros rs. unfold extract_candidate, encode_response. cbn.
    by rewrite scan_candidates_encoded. }
  split; [apply Hall|].
  intros i imagine. eexists. split; [rewrite Hall; reflexivity|]. reflexivity.
Qed.

(** Inversion of a bind that returned. *)
Lemma bind_Ret {A B} (m : res A) (f : A → res B) (b : B) :
  m ≫= f = Ret b → ∃ a, m = Ret a ∧ f a = Ret b.
Proof. destruct m as [a|e]; [eauto | discriminate]. Qed.

Tactic Notation "bind_inv" hyp(H) "as" ident(a) ident(Ha) :=
  apply bind_Ret in H as (a & Ha & H).

Lemma truthy_text (v : pyval) :
  text_or_none v = true → truthy v = true → ∃ s, v = PStr s ∧ s ≠ "".
Proof.
  destruct v as [|s| | | |]; try discriminate. intros _ Hs.
  exists s. split; [done|]. intros ->. discriminate.
Qed.

Lemma text_fields_dict_get entries k d :
  text_fields (PDict entries) = true → text_fields d = true →
  text_fields (dict_get entries k d) = true.
Proof.
  intros Hall Hd. unfold dict_get. cbn in Hall.
  induction entries as [|[k' x] entries IH]; [exact Hd|].
  cbn in Hall. apply andb_prop in Hall as [[_ Hx]%andb_prop Hrest].
  cbn. destruct (String.eqb k' k); [exact Hx | by apply IH].
Qed.

Lemma text_dict_get_named entries k :
  k = "title" ∨ k = "name" → text_fields (PDict entries) = true →
  text_or_none (dict_get entries k PNone) = true.
Proof.
  intros Hk Hall. unfold dict_get. cbn in Hall.
  induction entries as [|[k' x] entries IH]; [reflexivity|].
  cbn in Hall. apply andb_prop in Hall as [[Hnamed _]%andb_prop Hrest].
  cbn. destruct (String.eqb k' k) eqn:Heq; [|by apply IH].
  apply String.eqb_eq in Heq as ->. by destruct Hk as [-> | ->].
Qed.

Lemma text_fields_chars s : forallb text_fields (chars s) = true.
Proof. induction s; [reflexivity | exact IHs]. Qed.

Lemma text_fields_getitem0 v x :
  text_fields v = true → py_getitem0 v = Ret x → text_fields x = true.
Proof.
  destruct v as [|s| |[|y items]|[|y items]|]; cbn; try discriminate.
  - destruct s; cbn; [discriminate|]. by intros _ [= <-].
  - intros [Hy _]%andb_prop [= <-]. exact Hy.
  - intros [Hy _]%andb_prop [= <-]. exact Hy.
Qed.

Lemma text_fields_iter v items :
  text_fields v = true → py_iter v = Ret items → forallb text_fields items = true.
Proof.
  destruct v as [|s| |l|l|entries]; cbn; try discriminate.
  - intros _ [= <-]. apply text_fields_chars.
  - by intros H [= <-].
  - by intros H [= <-].
  - intros _ [= <-]. by induction entries.
Qed.

Lemma text_fields_py_or a b :
  text_fields a = true → text_fields b = true → text_fields (py_or a b) = true.
Proof. unfold py_or. by destruct (truthy a). Qed.

Lemma candidate_in_text r meta :
  text_fields r = true → candidate_in r = Ret (Some meta) → text_candidate meta.
Proof.
  intros Hr H. unfold candidate_in in H.
  bind_inv H as found Hfound.
  destruct r as [| | | | |entries]; try discriminate.
  injection Hfound as <-.
  set (recordings := py_or _ _) in H.
  assert (Hrecs : text_fields recordings = true).
  { apply text_fields_py_or; [by apply text_fields_dict_get | reflexivity]. }
  destruct (truthy recordings); [|discriminate].
  bind_inv H as rec Hrec.
  apply (text_fields_getitem0 _ _ Hrecs) in Hrec.
  bind_inv H as title Htitle.
  destruct rec as [| | | | |fields]; try discriminate.
  injection Htitle as <-.
  bind_inv H as listed Hlisted. injection Hlisted as <-.
  set (artists := py_or _ _) in H.
  assert (Harts : text_fields artists = true).
  { apply text_fields_py_or; [by apply text_fields_dict_get | reflexivity]. }
  bind_inv H as artist Hartist.
  assert (Htext : text_or_none artist = true).
  { destruct (truthy artists); [|by injection Hartist as <-].
    bind_inv Hartist as first Hfirst.
    apply (text_fields_getitem0 _ _ Harts) in Hfirst.
    destruct first as [| | | | |named]; try discriminate.
    injection Hartist as <-. by apply text_dict_get_named; [right|]. }
  destruct (truthy (dict_get fields "title" PNone)) eqn:Htruthy; [|discriminate].
  injection H as <-.
  destruct (truthy_text (dict_get fields "title" PNone)) as (t & -> & Ht);
    [by apply text_dict_get_named; [left|] | exact Htruthy |].
  unfold py_or. destruct (truthy artist) eqn:Hta.
  - destruct (truthy_text artist Htext Hta) as (a & -> & _). by exists t, a.
  - by exists t, "".
Qed.

Lemma scan_candidates_text items meta :
  forallb text_fields items = true →
  scan_candidates items = Ret (Some meta) → text_candidate meta.
Proof.
  induction items as [|r items IH]; [discriminate|].
  cbn. intros [Hr Hrest]%andb_prop H. bind_inv H as found Hfound.
  destruct found as [m|].
  - injection H as ->. by apply (candidate_in_text r).
  - by apply IH.
Qed.

Lemma extract_candidate_returns candidates :
  ∃ meta, extract_candidate candidates = Ret meta.
Proof.
  unfold extract_candidate.
  destruct (py_iter candidates ≫= _) as [meta|e]; cbn; eauto.
Qed.

Lemma extract_candidate_text candidates meta :
  text_fields candidates = true →
  extract_candidate candidates = Ret (Some meta) → text_candidate meta.
Proof.
  intros Hc. unfold extract_candidate.
  destruct (py_iter candidates) as [items|e] eqn:Hiter; cbn; [|discriminate].
  pose proof (text_fields_iter _ _ Hc Hiter) as Hitems.
  destruct (scan_candidates items) as [found|e] eqn:Hscan; cbn; [|discriminate].
  intros [= ->]. by apply (scan_candidates_text items).
Qed.

Lemma text_fields_candidates_of results :
  text_fields results = true → text_fields (candidates_of results) = true.
Proof.
  destruct results as [| | | |[|status [|second items]]|]; try done.
  cbn. by intros [_ [H _]%andb_prop]%andb_prop.
Qed.

(** The fingerprint tier never raises. *)
Lemma fingerprint_and_lookup_returns A i path key :
  ∃ meta, fingerprint_and_lookup A i path key = Ret meta.
Proof.
  unfold fingerprint_and_lookup.
  destruct (acoustid_installed A), key as [k|]; eauto.
  destruct (fingerprint_file A i path) as [[duration fp]|e]; eauto.
  destruct (lookup A i k fp duration) as [results|e]; eauto.
  cbn. apply extract_candidate_returns.
Qed.

Lemma fingerprint_and_lookup_text A i path key meta :
  honours_schema A i →
  fingerprint_and_lookup A i path key = Ret (Some meta) → text_candidate meta.
Proof.
  intros Hschema. unfold fingerprint_and_lookup.
  destruct (acoustid_installed A), key as [k|]; try discriminate.
  destruct (fingerprint_file A i path) as [[duration fp]|e]; [|discriminate].
  destruct (lookup A i k fp duration) as [results|e] eqn:Hlookup; [|discriminate].
  cbn. apply extract_candidate_text, text_fields_candidates_of.
  by apply (Hschema k fp duration).
Qed.

(** ** Properties of the tag tier and of the query *)

Lemma read_tags_returns M path : ∃ meta, read_tags M path = Ret meta.
Proof.
  unfold read_tags. destruct (mutagen_installed M); [|eauto].
  destruct (MutagenFile M path ≫= _) as [meta|e]; cbn; eauto.
Qed.

Lemma read_tags_text M path meta :
  read_tags M path = Ret (Some meta) →
  ∃ title artist, meta = (PStr title, PStr artist).
Proof.
  unfold read_tags. destruct (mutagen_installed M); [|discriminate].
  destruct (MutagenFile M path) as [m|e]; cbn; [|discriminate].
  destruct (usable_tags m) as [tags|]; cbn; [|discriminate].
  unfold tags_metadata.
  destruct (normalize (selected_title tags)) as [title|e]; cbn; [|discriminate].
  destruct (normalize (selected_artist tags)) as [artist|e]; cbn; [|discriminate].
  destruct (truthy title); cbn; [|discriminate].
  intros [= <-]. eauto.
Qed.

Lemma placeholder_text index : ∃ s, placeholder index = PStr s ∧ s ≠ "".
Proof. unfold placeholder. eexists. split; [reflexivity | done]. Qed.

Lemma make_query_text title artist index :
  ∃ s, make_query_from_metadata (Some (PStr title, PStr artist)) index = PStr s ∧ s ≠ "".
Proof.
  cbn. destruct title as [|c title]; cbn; [apply placeholder_text|].
  destruct artist as [|d artist]; cbn; eexists; (split; [reflexivity | done]).
Qed.

Lemma make_query_truthy meta index :
  truthy (make_query_from_metadata meta index) = true.
Proof.
  destruct meta as [[title artist]|]; [|reflexivity]. cbn.
  destruct (truthy title) eqn:Htitle; [|reflexivity].
  destruct (truthy artist); [|exact Htitle].
  cbn. by destruct (py_str title).
Qed.

(** What [resolve_segment] computes: the query of the candidate the tiers
    arrive at. *)
Lemma resolve_segment_outcome E input_path key i tf_name :
  ∃ looked_up meta,
    (fingerprint_tier E key i tf_name).2 = Ret looked_up
    ∧ (resolve_segment E input_path key i tf_name).2
      = Ret (make_query_from_metadata meta (Z.of_nat i))
    ∧ match looked_up with
      | Some _ => meta = looked_up
      | None =>
          if bool_decide (i = 0%nat)
          then read_tags (mutagen E) input_path = Ret meta
          else meta = None
      end.
Proof.
  unfold resolve_segment, fingerprint_tier, tag_tier.
  destruct (key_given key).
  - destruct (fingerprint_and_lookup_returns (acoustid E) i tf_name key) as [m1 ->].
    destruct m1 as [m|]; [by exists (Some m), (Some m)|].
    case_bool_decide; [|by exists None, None].
    destruct (read_tags_returns (mutagen E) input_path) as [m2 Hm2].
    exists None, m2. rewrite Hm2. by destruct m2.
  - case_bool_decide; [|by exists None, None].
    destruct (read_tags_returns (mutagen E) input_path) as [m2 Hm2].
    exists None, m2. cbn. rewrite Hm2. by destruct m2.
Qed.

Lemma fingerprint_tier_text E key i tf_name meta :
  honours_schema (acoustid E) i →
  (fingerprint_tier E key i tf_name).2 = Ret (Some meta) → text_candidate meta.
Proof.
  intros Hschema. unfold fingerprint_tier. destruct (key_given key); [|discriminate].
  by apply fingerprint_and_lookup_text.
Qed.

Lemma resolve_segment_text E input_path key i tf_name q :
  honours_schema (acoustid E) i →
  (resolve_segment E input_path key i tf_name).2 = Ret q →
  ∃ s, q = PStr s ∧ s ≠ "".
Proof.
  intros Hschema Hq.
  destruct (resolve_segment_outcome E input_path key i tf_name)
    as (looked_up & meta & Htier & Hq' & Hmeta).
  rewrite Hq' in Hq. injection Hq as <-.
  destruct looked_up as [m|].
  - subst meta. destruct (fingerprint_tier_text E key i tf_name m Hschema Htier)
      as (t & a & -> & _). apply make_query_text.
  - case_bool_decide.
    + destruct meta as [m|]; [|apply placeholder_text].
      destruct (read_tags_text _ _ _ Hmeta) as (t & a & ->). apply make_query_text.
    + subst meta. apply placeholder_text.
Qed.

Lemma resolve_segment_returns E input_path key i tf_name :
  ∃ q, (resolve_segment E input_path key i tf_name).2 = Ret q.
Proof.
  destruct (resolve_segment_outcome E input_path key i tf_name)
    as (_ & meta & _ & Hq & _). eauto.
Qed.

(** Resolving a segment never raises: it returns a query, which is never
    an empty value.  When the responses for the segment keep to the
    service's schema the query is a non-empty string; a response outside
    the schema can make it another value.  When neither tier yields a
    candidate it is the placeholder of the segment.  A failure of
    fingerprinting, of the lookup or of reading the response makes the
    fingerprint tier return [None]. *)
Theorem resolution_total (E : Env) (input_path : string) (key : option string)
    (i : nat) (tf_name : string) :
  ∃ q, (resolve_segment E input_path key i tf_name).2 = Ret q
    ∧ truthy q = true
    ∧ (honours_schema (acoustid E) i → ∃ s, q = PStr s ∧ s ≠ "")
    ∧ ((fingerprint_tier E key i tf_name).2 = Ret None →
       i ≠ 0%nat ∨ read_tags (mutagen E) input_path = Ret None →
       q = placeholder (Z.of_nat i))
    ∧ (∀ path k,
         ∃ meta, fingerprint_and_lookup (acoustid E) i path k = Ret meta
           ∧ ((∃ e, fingerprint_file (acoustid E) i path = Raise e) → meta = None)
           ∧ (∀ duration fp secret,
                fingerprint_file (acoustid E) i path = Ret (duration, fp) →
                k = Some secret →
                (∃ e, lookup (acoustid E) i secret fp duration = Raise e) → meta = None)
           ∧ (∀ duration fp secret results,
                fingerprint_file (acoustid E) i path = Ret (duration, fp) →
                k = Some secret →
                lookup (acoustid E) i secret fp duration = Ret results →
                (∃ e, (items ← py_iter (candidates_of results); scan_candidates items)
                      = Raise e) →
                meta = None)).
Proof.
  destruct (resolve_segment_outcome E input_path key i tf_name)
    as (looked_up & meta & Htier & Hq & Hmeta).
  eexists. split; [exact Hq|]. split; [apply make_query_truthy|]. split; [|split].
  - intros Hschema. by apply (resolve_segment_text E input_path key i tf_name).
  - intros Hnone Htags. rewrite Htier in Hnone. injection Hnone as ->.
    case_bool_decide.
    + destruct Htags as [Hi | Htags]; [done|]. rewrite Htags in Hmeta.
      by injection Hmeta as <-.
    + by subst meta.
  - intros path k.
    destruct (fingerprint_and_lookup_returns (acoustid E) i path k) as [m Hm].
    exists m. split; [exact Hm|]. unfold fingerprint_and_lookup in Hm.
    destruct (acoustid_installed (acoustid E)), k as [secret|];
      try (injection Hm as <-; by repeat split).
    split; [|split].
    + intros [e He]. rewrite He in Hm. by injection Hm as <-.
    + intros duration fp ? Hfp [= <-] [e He]. rewrite Hfp, He in Hm.
      by injection Hm as <-.
    + intros duration fp ? results Hfp [= <-] Hlookup [e He].
      rewrite Hfp, Hlookup in Hm. cbn in Hm. unfold extract_candidate in Hm.
      rewrite He in Hm. by injection Hm as <-.
Qed.

(** C6, as amended.  A candidate with a non-empty title gives
    "title - artist" when the artist is not empty and the title alone when it
    is; a candidate whose title is empty gives the placeholder, as does the
    absence of a candidate: "Unknown Track" followed by the index plus one,
    so "Unknown Track 3" for index 2. *)
Theorem query_format (title artist : string) (i : Z) :
  make_query_from_metadata (Some (PStr title, PStr artist)) i
  = (if String.eqb title "" then PStr ("Unknown Track " +:+ pretty (i + 1))
     else if String.eqb artist "" then PStr title
     else PStr (title +:+ " - " +:+ artist))
  ∧ make_query_from_metadata None i = PStr ("Unknown Track " +:+ pretty (i + 1))
  ∧ make_query_from_metadata None 2 = PStr "Unknown Track 3".
Proof.
  split; [|by split].
  cbn. destruct (String.eqb title ""); [reflexivity|]. cbn.
  by destruct (String.eqb artist "").
Qed.

Lemma normalize_list first rest : normalize (PList (first :: rest)) = Ret first.
Proof. reflexivity. Qed.


(** ** Properties of the orchestrator *)

Lemma process_segments_queries E input_path key segments :
  ∀ i st,
    match queries_from E input_path key i segments with
    | Ret qs =>
        (process_segments E input_path key i segments st).2 = Ret ()
        ∧ queries (process_segments E input_path key i segments st).1 = queries st ++ qs
    | Raise e => (process_segments E input_path key i segments st).2 = Raise e
    end.
Proof.
  induction segments as [|seg rest IH]; intros i st; cbn.
  - by rewrite app_nil_r.
  - unfold segment_query.
    destruct (NamedTemporaryFile (os E) i) as [tf|e]; cbn; [|done].
    destruct (export (pydub E) i seg tf) as [[]|e]; cbn; [|done].
    destruct (resolve_segment E input_path key i tf) as [log [q|e]]; cbn; [|done].
    match goal with
    | |- context [process_segments E input_path key (S i) rest ?s] => specialize (IH (S i) s)
    end.
    destruct (queries_from E input_path key (S i) rest) as [qs|e]; cbn; [|exact IH].
    destruct IH as [-> ->]. cbn. by rewrite <- app_assoc.
Qed.

Lemma queries_from_lookup E input_path key segments :
  ∀ i qs,
    queries_from E input_path key i segments = Ret qs →
    length qs = length segments
    ∧ ∀ j seg, segments !! j = Some seg →
        ∃ q, qs !! j = Some q
             ∧ segment_query E input_path key (i + j) seg = Ret q.
Proof.
  induction segments as [|seg rest IH]; intros i qs; cbn.
  - intros [= <-]. split; [done|]. intros j seg' Hj. by rewrite lookup_nil in Hj.
  - intros H. bind_inv H as q Hq. bind_inv H as qs' Hqs. injection H as <-.
    destruct (IH _ _ Hqs) as [Hlen Hat]. split; [cbn; by rewrite Hlen|].
    intros [|j] seg' Hj; cbn in Hj.
    + injection Hj as <-. exists q. by rewrite Nat.add_0_r.
    + destruct (Hat j seg' Hj) as (q' & Hq' & Hseg). exists q'.
      split; [exact Hq'|]. by replace (i + S j)%nat with (S i + j)%nat by lia.
Qed.

Lemma write_lines_text qs :
  (write_lines qs).2 = Ret () ↔ Forall is_text qs.
Proof.
  induction qs as [|q qs IH]; cbn; [by split|].
  destruct q as [|s| | | |]; cbn;
    try (split; [discriminate | intros [[? [=]] _]%Forall_cons]).
  destruct (write_lines qs) as [lines r]. cbn in *. rewrite IH. split.
  - intros H. constructor; [by exists s | exact H].
  - by intros [_ H]%Forall_cons.
Qed.

Lemma write_lines_lines qs :
  Forall is_text qs →
  (write_lines qs).1 = map (fun q => py_str q +:+ newline) qs.
Proof.
  induction 1 as [|q qs [s ->] _ IH]; [reflexivity|].
  cbn. destruct (write_lines qs) as [lines r]. cbn in *. by rewrite IH.
Qed.

(** When a run returns, and what it returns then. *)
Lemma process_file_outcome E input_path output_path key msl thresh keep disk0 qs :
  outcome (process_file E input_path output_path key msl thresh keep disk0) = Ret qs
  ↔ ∃ total,
      from_file (pydub E) input_path = Ret total
      ∧ queries_from E input_path key 0
          (segments_of (pydub E) (recording total) msl thresh keep) = Ret qs
      ∧ open_output (os E) output_path = Ret ()
      ∧ Forall is_text qs.
Proof.
  unfold process_file.
  destruct (from_file (pydub E) input_path) as [total|e]; cbn;
    [|split; [discriminate | by intros (? & [=] & _)]].
  set (segments := segments_of _ _ _ _ _).
  set (st0 := {| queries := []; temp_files := []; disk := disk0; calls := [] |}).
  pose proof (process_segments_queries E input_path key segments 0 st0) as Hloop.
  destruct (process_segments E input_path key 0 segments st0) as [st looped].
  cbn in Hloop.
  destruct (queries_from E input_path key 0 segments) as [qs0|e] eqn:Hfrom.
  - destruct Hloop as [-> Hqs]. cbn in Hqs. subst qs0.
    destruct (open_output (os E) output_path) as [[]|e]; cbn.
    + pose proof (write_lines_text (queries st)) as Htext.
      destruct (write_lines (queries st)) as [lines [[]|e]]; cbn in *.
      * split.
        -- intros [= <-]. exists total. repeat split; [exact Hfrom | by apply Htext].
        -- intros (? & [= <-] & Hqs & _). fold segments in Hqs.
           rewrite Hfrom in Hqs. by injection Hqs as ->.
      * split; [discriminate|].
        intros (? & [= <-] & Hqs & _ & Hall). fold segments in Hqs.
        rewrite Hfrom in Hqs. injection Hqs as <-. by apply Htext in Hall.
    + split; [discriminate | by intros (? & _ & _ & [=] & _)].
  - rewrite Hloop. cbn. split; [discriminate|].
    intros (? & [= <-] & Hqs & _). fold segments in Hqs. by rewrite Hfrom in Hqs.
Qed.

Lemma process_file_written E input_path output_path key msl thresh keep disk0 qs :
  outcome (process_file E input_path output_path key msl thresh keep disk0) = Ret qs →
  written (process_file E input_path output_path key msl thresh keep disk0)
  = Some (map (fun q => py_str q +:+ newline) qs).
Proof.
  intros Hout. pose proof Hout as (total & Htotal & _ & _ & Htext)%process_file_outcome.
  revert Hout. unfold process_file. rewrite Htotal.
  destruct (process_segments _ _ _ _ _ _) as [st [[]|e]]; cbn; [|discriminate].
  destruct (open_output (os E) output_path) as [[]|e]; cbn; [|discriminate].
  pose proof (write_lines_lines (queries st)) as Hlines.
  destruct (write_lines (queries st)) as [lines [[]|e]]; cbn in *; [|discriminate].
  intros [= <-]. by rewrite Hlines.
Qed.

Lemma queries_from_returns E input_path key segments :
  ∀ i,
    (∀ j seg, segments !! j = Some seg →
       ∃ tf, NamedTemporaryFile (os E) (i + j) = Ret tf
             ∧ export (pydub E) (i + j) seg tf = Ret ()) →
    ∃ qs, queries_from E input_path key i segments = Ret qs.
Proof.
  induction segments as [|seg rest IH]; intros i Hok; cbn; [eauto|].
  destruct (Hok 0%nat seg eq_refl) as (tf & Htf & Hexport).
  rewrite Nat.add_0_r in Htf, Hexport.
  unfold segment_query. rewrite Htf. cbn. rewrite Hexport. cbn.
  destruct (resolve_segment_returns E input_path key i tf) as [q ->]. cbn.
  destruct (IH (S i)) as [qs ->]; [|cbn; eauto].
  intros j seg' Hj. replace (S i + j)%nat with (i + S j)%nat by lia.
  by apply Hok.
Qed.

Lemma queries_from_text E input_path key segments :
  (∀ j, honours_schema (acoustid E) j) →
  ∀ i qs, queries_from E input_path key i segments = Ret qs → Forall is_text qs.
Proof.
  intros Hschema. induction segments as [|seg rest IH]; intros i qs; cbn.
  - by intros [= <-].
  - intros H. bind_inv H as q Hq. bind_inv H as qs' Hqs. injection H as <-.
    constructor; [|by apply (IH (S i))].
    unfold segment_query in Hq. bind_inv Hq as tf Htf. bind_inv Hq as u Hu.
    destruct (resolve_segment_text E input_path key i tf q (Hschema i) Hq) as (s & -> & _).
    by exists s.
Qed.



(** C3. A run that returns gives one query per segment, the query at each
    position being the one resolved for the segment at that position, and
    writes them in that order; whichever tier produced a query, it stays at
    the position of its segment.  A run returns whenever the file loads, the
    temporary files and exports succeed, the output opens and the responses
    keep to the schema.  The segmenter emits its ranges in the order of the
    detected spans, so by ascending start when the spans are. *)
Theorem order_preservation (E : Env) (input_path output_path : string)
    (key : option string) (msl thresh keep : Z) (disk0 : gset string) :
  (∀ qs,
     outcome (process_file E input_path output_path key msl thresh keep disk0) = Ret qs →
     ∃ total,
       from_file (pydub E) input_path = Ret total
       ∧ length qs = length (segments_of (pydub E) (recording total) msl thresh keep)
       ∧ (∀ j seg,
            segments_of (pydub E) (recording total) msl thresh keep !! j = Some seg →
            ∃ tf q, NamedTemporaryFile (os E) j = Ret tf
                    ∧ (resolve_segment E input_path key j tf).2 = Ret q
                    ∧ qs !! j = Some q)
       ∧ written (process_file E input_path output_path key msl thresh keep disk0)
         = Some (map (fun q => py_str q +:+ newline) qs))
  ∧ (∀ total,
       from_file (pydub E) input_path = Ret total →
       (∀ j seg,
          segments_of (pydub E) (recording total) msl thresh keep !! j = Some seg →
          ∃ tf, NamedTemporaryFile (os E) j = Ret tf
                ∧ export (pydub E) j seg tf = Ret ()) →
       open_output (os E) output_path = Ret () →
       (∀ j, honours_schema (acoustid E) j) →
       ∃ qs, outcome (process_file E input_path output_path key msl thresh keep disk0)
             = Ret qs)
  ∧ (∀ total j1 j2 span1 span2 seg1 seg2,
       detect_nonsilent (pydub E) (recording total) msl thresh !! j1 = Some span1 →
       detect_nonsilent (pydub E) (recording total) msl thresh !! j2 = Some span2 →
       split_on_silence (pydub E) (recording total) msl thresh keep !! j1 = Some seg1 →
       split_on_silence (pydub E) (recording total) msl thresh keep !! j2 = Some seg2 →
       span1.1 ≤ span2.1 → start_ms seg1 ≤ start_ms seg2).
Proof.
  split; [|split].
  - intros qs Hout.
    pose proof Hout as (total & Htotal & Hfrom & _ & _)%process_file_outcome.
    exists total. destruct (queries_from_lookup _ _ _ _ _ _ Hfrom) as [Hlen Hat].
    repeat split; [done | done | | by apply process_file_written].
    intros j seg Hj. destruct (Hat j seg Hj) as (q & Hq & Hseg). cbn in Hseg.
    unfold segment_query in Hseg. bind_inv Hseg as tf Htf. bind_inv Hseg as u Hu.
    by exists tf, q.
  - intros total Htotal Hok Hopen Hschema.
    destruct (queries_from_returns E input_path key
                (segments_of (pydub E) (recording total) msl thresh keep) 0 Hok)
      as [qs Hqs].
    exists qs. apply process_file_outcome. exists total.
    repeat split; [done | done | done | by eapply queries_from_text].
  - intros total j1 j2 span1 span2 seg1 seg2 Hs1 Hs2.
    rewrite split_on_silence_ranges, !list_lookup_fmap, Hs1, Hs2. cbn.
    intros [= <-] [= <-] Hle. cbn. lia.
Qed.







(** The [finally] block removes the files whose [unlink] does not fail,
    and goes on after one that does. *)
Lemma cleanup_removes O temp_files :
  ∀ disk,
    cleanup O temp_files disk
    = disk ∖ list_to_set (filter (λ p, unlink_fails O p = false) temp_files).
Proof.
  induction temp_files as [|p rest IH]; intros disk; cbn [cleanup].
  - rewrite filter_nil. set_solver.
  - rewrite filter_cons. unfold os_unlink.
    destruct (unlink_fails O p) eqn:Hp; case_bool_decide; cbn;
      rewrite IH; destruct (decide _); try congruence; set_solver.
Qed.

(** The loop adds to the disk the temporary files it records, and no
    other. *)
Lemma process_segments_files E input_path key segments :
  ∀ i st,
    ∃ names,
      temp_files (process_segments E input_path key i segments st).1
      = temp_files st ++ names
      ∧ disk (process_segments E input_path key i segments st).1
        = list_to_set names ∪ disk st
      ∧ ∀ j p, names !! j = Some p → NamedTemporaryFile (os E) (i + j) = Ret p.
Proof.
  induction segments as [|seg rest IH]; intros i st; cbn.
  - exists []. rewrite app_nil_r. split; [done|]. split; [set_solver|].
    intros j p Hj. by rewrite lookup_nil in Hj.
  - destruct (NamedTemporaryFile (os E) i) as [tf|e] eqn:Htf; cbn.
    2: { exists []. rewrite app_nil_r. split; [done|]. split; [set_solver|].
         intros j p Hj. by rewrite lookup_nil in Hj. }
    assert (Hone : ∀ j p, [tf] !! j = Some p → NamedTemporaryFile (os E) (i + j) = Ret p).
    { intros [|j] p Hj; [|discriminate].
      injection Hj as <-. by rewrite Nat.add_0_r. }
    destruct (export (pydub E) i seg tf) as [[]|e]; cbn.
    2: { exists [tf]. cbn. split; [done|]. split; [set_solver | exact Hone]. }
    destruct (resolve_segment E input_path key i tf) as [log [q|e]]; cbn.
    2: { exists [tf]. cbn. split; [done|]. split; [set_solver | exact Hone]. }
    match goal with
    | |- context [process_segments E input_path key (S i) rest ?s] =>
        destruct (IH (S i) s) as (names & -> & -> & Hnames)
    end.
    cbn. exists (tf :: names). rewrite <- app_assoc. split; [done|].
    split; [set_solver|].
    intros [|j] p Hj; [by apply (Hone 0%nat)|].
    replace (i + S j)%nat with (S i + j)%nat by lia. by apply Hnames.
Qed.

(** C9, as amended.  At the end of a run, whether it returns or raises,
    every temporary file it created has been passed to [os.unlink]: the disk
    holds what it held before the run and the created files, less those
    created files whose [unlink] did not fail.  A created file whose [unlink] does not
    fail is gone; one whose [unlink] fails is still there, the failure being
    swallowed; and when no [unlink] fails the disk holds what it held
    before, less the names of the created files.  The files it created are
    those that [NamedTemporaryFile] returned for its segments. *)
Theorem temp_files_deleted (E : Env) (input_path output_path : string)
    (key : option string) (msl thresh keep : Z) (disk0 : gset string) :
  final_disk (process_file E input_path output_path key msl thresh keep disk0)
  = (list_to_set
       (created (process_file E input_path output_path key msl thresh keep disk0))
     ∪ disk0)
    ∖ list_to_set
        (filter (λ p, unlink_fails (os E) p = false)
           (created (process_file E input_path output_path key msl thresh keep disk0)))
  ∧ (∀ p, p ∈ created (process_file E input_path output_path key msl thresh keep disk0) →
          unlink_fails (os E) p = false →
          p ∉ final_disk (process_file E input_path output_path key msl thresh keep disk0))
  ∧ (∀ p, p ∈ created (process_file E input_path output_path key msl thresh keep disk0) →
          unlink_fails (os E) p = true →
          p ∈ final_disk (process_file E input_path output_path key msl thresh keep disk0))
  ∧ ((∀ p, p ∈ created (process_file E input_path output_path key msl thresh keep disk0) →
           unlink_fails (os E) p = false) →
     final_disk (process_file E input_path output_path key msl thresh keep disk0)
     = disk0 ∖ list_to_set
                 (created (process_file E input_path output_path key msl thresh keep disk0)))
  ∧ (∀ j p,
       created (process_file E input_path output_path key msl thresh keep disk0) !! j
       = Some p →
       NamedTemporaryFile (os E) j = Ret p).
Proof.
  assert (Hfinal :
    final_disk (process_file E input_path output_path key msl thresh keep disk0)
    = (list_to_set
         (created (process_file E input_path output_path key msl thresh keep disk0))
       ∪ disk0)
      ∖ list_to_set
          (filter (λ p, unlink_fails (os E) p = false)
             (created (process_file E input_path output_path key msl thresh keep disk0)))
    ∧ (∀ j p,
         created (process_file E input_path output_path key msl thresh keep disk0) !! j
         = Some p →
         NamedTemporaryFile (os E) j = Ret p)).
  { unfold process_file.
    destruct (from_file (pydub E) input_path) as [total|e]; cbn.
    2: { split; [set_solver|].
         intros j p Hj. by rewrite lookup_nil in Hj. }
    set (segments := segments_of _ _ _ _ _).
    set (st0 := {| queries := []; temp_files := []; disk := disk0; calls := [] |}).
    destruct (process_segments_files E input_path key segments 0 st0)
      as (names & Htemp & Hdisk & Hnames).
    destruct (process_segments E input_path key 0 segments st0) as [st looped].
    cbn in Htemp, Hdisk.
    assert (Hclean :
      cleanup (os E) (temp_files st) (disk st)
      = (list_to_set (temp_files st) ∪ disk0)
        ∖ list_to_set (filter (λ p, unlink_fails (os E) p = false) (temp_files st))).
    { by rewrite cleanup_removes, Htemp, Hdisk. }
    rewrite Hclean.
    destruct looped as [[]|e]; cbn; [|by rewrite Htemp].
    destruct (open_output (os E) output_path) as [[]|e]; cbn; [|by rewrite Htemp].
    destruct (write_lines (queries st)) as [lines wrote]. cbn. by rewrite Htemp. }
  destruct Hfinal as [Hdisk Hnames].
  split; [exact Hdisk|]. split; [|split; [|split; [|exact Hnames]]].
  - intros p Hp Hok. rewrite Hdisk.
    assert (p ∈ filter (λ p, unlink_fails (os E) p = false)
                  (created (process_file E input_path output_path key msl thresh keep disk0)))
      by (by apply list_elem_of_filter).
    set_solver.
  - intros p Hp Hbad. rewrite Hdisk.
    apply elem_of_difference. split; [set_solver|].
    rewrite elem_of_list_to_set, list_elem_of_filter. intros [Hok _]. congruence.
  - intros Hall. rewrite Hdisk.
    assert (Hsame :
      filter (λ p, unlink_fails (os E) p = false)
        (created (process_file E input_path output_path key msl thresh keep disk0))
      = created (process_file E input_path output_path key msl thresh keep disk0)).
    { revert Hall.
      generalize (created (process_file E input_path output_path key msl thresh keep disk0)).
      intros l. induction l as [|p l IH]; intros Hall; [done|].
      rewrite filter_cons. destruct (decide _) as [_|Hno].
      - f_equal. apply IH. intros q Hq. apply Hall. by apply list_elem_of_further.
      - exfalso. apply Hno, Hall, list_elem_of_here. }
    rewrite Hsame. set_solver.
Qed.

(** ** Properties of the playlist step *)

Lemma rstrip_empty s : rstrip s = "" ↔ only_spaces s = true.
Proof.
  induction s as [|c s IH]; cbn; [done|].
  destruct (rstrip s) as [|d kept]; cbn.
  - destruct (is_space c); cbn; [by rewrite <- IH | by split].
  - split; [discriminate|]. intros [_ Hs]%andb_prop. by apply IH in Hs.
Qed.

Lemma only_spaces_lstrip s : only_spaces (lstrip s) = only_spaces s.
Proof.
  induction s as [|c s IH]; cbn; [done|].
  destruct (is_space c) eqn:Hc; cbn; [exact IH | by rewrite Hc].
Qed.

Lemma is_blank_spaces q : is_blank q = only_spaces q.
Proof.
  unfold is_blank, py_strip. apply eq_true_iff_eq.
  rewrite orb_true_iff, !String.eqb_eq, rstrip_empty, only_spaces_lstrip.
  split; [|by right]. by intros [-> | ?].
Qed.

Lemma collect_uris_log sp queries :
  ∀ i uris c,
    c ∈ (collect_uris sp i queries uris).1 →
    ∃ q, c = ApiSearch q ∧ q ∈ queries ∧ is_blank q = false.
Proof.
  induction queries as [|q rest IH]; intros i uris c; cbn; [by intros []%elem_of_nil|].
  destruct (is_blank q) eqn:Hq.
  - intros (q' & -> & Hin & Hb)%IH. exists q'. split; [done|]. split; [set_solver | done].
  - destruct (try_except_spotify _ _) as [uris'|e]; cbn.
    + specialize (IH (S i) uris' c).
      destruct (collect_uris sp (S i) rest uris') as [log r]. cbn in *.
      intros [->|Hin]%elem_of_cons.
      * exists q. split; [done|]. split; [set_solver | done].
      * destruct (IH Hin) as (q' & -> & Hin' & Hb). exists q'.
        split; [done|]. split; [set_solver | done].
    + intros [->|[]%elem_of_nil]%elem_of_cons. exists q.
      split; [done|]. split; [set_solver | done].
Qed.

Lemma collect_uris_returns sp queries :
  ∀ i uris,
    (∀ j q, queries !! j = Some q → is_blank q = false → search_behaves sp (i + j) q) →
    ∃ uris',
      collect_uris sp i queries uris
      = (ApiSearch <$> filter (fun q => is_blank q = false) queries, Ret uris').
Proof.
  induction queries as [|q rest IH]; intros i uris Hok; [cbn; eauto|].
  rewrite filter_cons. cbn [collect_uris].
  assert (Hrest : ∀ j q', rest !! j = Some q' → is_blank q' = false →
                          search_behaves sp (S i + j) q').
  { intros j q' Hj Hb. replace (S i + j)%nat with (i + S j)%nat by lia. by apply Hok. }
  destruct (is_blank q) eqn:Hq.
  - rewrite decide_False by done. by apply IH.
  - rewrite decide_True by done.
    assert (Hstep : ∃ uris1,
      try_except_spotify
        (search sp i q ≫= λ result,
           first_uri result ≫= λ found,
             Ret match found with
                 | Some uri => uris ++ [uri]
                 | None => uris
                 end)
        (Ret uris) = Ret uris1).
    { destruct (Hok 0%nat q eq_refl Hq) as [Hraise | (result & found & Hres & Hfound)];
        rewrite Nat.add_0_r in *.
      - rewrite Hraise. cbn. eauto.
      - rewrite Hres. cbn. rewrite Hfound. cbn. eauto. }
    destruct Hstep as [uris1 ->].
    destruct (IH (S i) uris1 Hrest) as [uris' ->]. cbn. eauto.
Qed.

Lemma searched_fmap qs : searched (ApiSearch <$> qs) = qs.
Proof. induction qs as [|q qs IH]; [done|]. cbn. f_equal. exact IH. Qed.

Lemma collect_uris_all_fail sp queries :
  ∀ i uris,
    (∀ j q, queries !! j = Some q → is_blank q = false →
            search sp (i + j) q = Raise SpotifyException) →
    collect_uris sp i queries uris
    = (ApiSearch <$> filter (fun q => is_blank q = false) queries, Ret uris).
Proof.
  induction queries as [|q rest IH]; intros i uris Hfail; [reflexivity|].
  rewrite filter_cons. cbn [collect_uris].
  assert (Hrest : ∀ j q', rest !! j = Some q' → is_blank q' = false →
                          search sp (S i + j) q' = Raise SpotifyException).
  { intros j q' Hj Hb. replace (S i + j)%nat with (i + S j)%nat by lia. by apply Hfail. }
  destruct (is_blank q) eqn:Hq.
  - rewrite decide_False by done. by apply IH.
  - rewrite decide_True by done.
    pose proof (Hfail 0%nat q eq_refl Hq) as Hraise. rewrite Nat.add_0_r in Hraise.
    rewrite Hraise. cbn. by rewrite (IH (S i) uris Hrest).
Qed.

(** C10, as amended.  The first call is the creation of the playlist, and
    no search is made when it raises.  Only queries of the list that are neither empty
    nor made of white space are searched for.  When the playlist is created,
    each search either raises a [SpotifyException] or returns a result that
    can be read, and adding the items succeeds, the function returns the
    playlist, having searched for every other query in order.  When every
    search raises a [SpotifyException] it returns the playlist with
    nothing added. *)
Theorem consumer_robustness (sp : Spotify) (user_id playlist_name : string)
    (song_queries : list string) :
  (∃ later,
     (create_playlist_and_add_tracks sp user_id playlist_name song_queries).1
     = ApiCreate user_id playlist_name :: later
     ∧ ∀ u n, ApiCreate u n ∉ later)
  ∧ (∀ e, user_playlist_create sp user_id playlist_name = Raise e →
          create_playlist_and_add_tracks sp user_id playlist_name song_queries
          = ([ApiCreate user_id playlist_name], Raise e))
  ∧ (∀ q, ApiSearch q
          ∈ (create_playlist_and_add_tracks sp user_id playlist_name song_queries).1 →
          q ∈ song_queries ∧ q ≠ "" ∧ only_spaces q = false)
  ∧ (∀ playlist,
       user_playlist_create sp user_id playlist_name = Ret playlist →
       (∀ j q, song_queries !! j = Some q → is_blank q = false → search_behaves sp j q) →
       (∀ items, ∃ id, py_getitem playlist "id" = Ret id
                       ∧ playlist_add_items sp id items = Ret ()) →
       (create_playlist_and_add_tracks sp user_id playlist_name song_queries).2
       = Ret playlist
       ∧ searched (create_playlist_and_add_tracks sp user_id playlist_name song_queries).1
         = filter (fun q => is_blank q = false) song_queries)
  ∧ (∀ playlist,
       user_playlist_create sp user_id playlist_name = Ret playlist →
       (∀ j q, song_queries !! j = Some q → is_blank q = false →
               search sp j q = Raise SpotifyException) →
       create_playlist_and_add_tracks sp user_id playlist_name song_queries
       = (ApiCreate user_id playlist_name
          :: (ApiSearch <$> filter (fun q => is_blank q = false) song_queries),
          Ret playlist)).
Proof.
  assert (Hlog : ∀ c, c ∈ (collect_uris sp 0 song_queries []).1 →
                      ∃ q, c = ApiSearch q ∧ q ∈ song_queries ∧ is_blank q = false)
    by apply collect_uris_log.
  split; [|split; [|split; [|split]]].
  - unfold create_playlist_and_add_tracks.
    destruct (user_playlist_create sp user_id playlist_name) as [playlist|e];
      [|exists []; split; [done | by intros u n []%elem_of_nil]].
    destruct (collect_uris sp 0 song_queries []) as [log r]. cbn in Hlog.
    assert (Hnone : ∀ u n, ApiCreate u n ∉ log).
    { intros u n (q & [=] & _)%Hlog. }
    destruct r as [[|uri uris]|e]; [by exists log | | by exists log].
    destruct (py_getitem playlist "id") as [id|e]; [|by exists log].
    eexists. split; [reflexivity|]. intros u n [Hin|Hin]%elem_of_app.
    + by apply (Hnone u n).
    + by apply list_elem_of_singleton in Hin.
  - intros e He. unfold create_playlist_and_add_tracks. by rewrite He.
  - intros q. unfold create_playlist_and_add_tracks.
    assert (Hq : ApiSearch q ∈ (collect_uris sp 0 song_queries []).1 →
                 q ∈ song_queries ∧ q ≠ "" ∧ only_spaces q = false).
    { intros (q' & [= <-] & Hin & Hb)%Hlog. split; [done|].
      rewrite <- is_blank_spaces. split; [|done]. by intros ->. }
    destruct (user_playlist_create sp user_id playlist_name) as [playlist|e];
      [|by intros [?|[]%elem_of_nil]%elem_of_cons].
    destruct (collect_uris sp 0 song_queries []) as [log r]. cbn in Hq.
    destruct r as [[|uri uris]|e];
      try (intros [?|Hin]%elem_of_cons; [discriminate | by apply Hq]).
    destruct (py_getitem playlist "id") as [id|e];
      [|intros [?|Hin]%elem_of_cons; [discriminate | by apply Hq]].
    intros [?|[Hin|Hin]%elem_of_app]%elem_of_cons; [discriminate | by apply Hq |].
    by apply list_elem_of_singleton in Hin.
  - intros playlist Hcreate Hsearch Hadd. unfold create_playlist_and_add_tracks.
    rewrite Hcreate.
    destruct (collect_uris_returns sp song_queries 0 [] Hsearch) as [uris ->].
    destruct uris as [|uri uris]; cbn; [by rewrite searched_fmap|].
    destruct (Hadd (uri :: uris)) as (id & -> & ->). cbn. split; [done|].
    unfold searched. rewrite omap_app. cbn. rewrite app_nil_r. apply searched_fmap.
  - intros playlist Hcreate Hfail. unfold create_playlist_and_add_tracks.
    rewrite Hcreate. by rewrite (collect_uris_all_fail sp song_queries 0 [] Hfail).
Qed.

(** ** Further properties of the fingerprint tier *)

Lemma candidate_in_not_dict r :
  is_dict r = false → ∃ e, candidate_in r = Raise e.
Proof. destruct r; try discriminate; intros _; by eexists. Qed.

(** X1. Only a list or a tuple can yield a candidate: when the lookup for a
    segment answers with a dict (a decoded JSON object), a string, [None] or
    any other object, the fingerprint tier returns [None], whatever the
    answer contains. *)
Theorem unsequenced_response_unmatched (A : AcoustID) (i : nat) (path : string)
    (key : option string) :
  (∀ secret fp duration results,
     lookup A i secret fp duration = Ret results →
     match results with PList _ | PTuple _ => False | _ => True end) →
  fingerprint_and_lookup A i path key = Ret None.
Proof.
  intros Hshape. unfold fingerprint_and_lookup.
  destruct (acoustid_installed A), key as [secret|]; try reflexivity.
  destruct (fingerprint_file A i path) as [[duration fp]|e]; [|reflexivity].
  destruct (lookup A i secret fp duration) as [results|e] eqn:Hlookup; [|reflexivity].
  specialize (Hshape _ _ _ _ Hlookup). cbn.
  destruct results as [|s| | | |entries]; try done; unfold extract_candidate; cbn.
  - destruct s; reflexivity.
  - destruct entries as [|[k v] entries]; reflexivity.
Qed.

Lemma scan_candidates_stops before r after e :
  Forall (fun r' => candidate_in r' = Ret None) before →
  candidate_in r = Raise e →
  scan_candidates (before ++ r :: after) = Raise e.
Proof.
  intros Hbefore Hr. induction Hbefore as [|r' before Hr' _ IH]; cbn.
  - by rewrite Hr.
  - by rewrite Hr'.
Qed.

(** X2. A result that is not a dict ends the scan of a response without a
    candidate: when the results before it give none, the results after it
    are not looked at, even if one of them would match. *)
Theorem malformed_result_ends_scan (before : list pyval) (r : pyval) (after : list pyval) :
  Forall (fun r' => candidate_in r' = Ret None) before →
  is_dict r = false →
  extract_candidate (PList (before ++ r :: after)) = Ret None.
Proof.
  intros Hbefore Hr. destruct (candidate_in_not_dict r Hr) as [e He].
  unfold extract_candidate. cbn.
  by rewrite (scan_candidates_stops before r after e Hbefore He).
Qed.

(** ** Further properties of the segmenter *)

(** X3. A detected span that lies within the buffer is emitted as a range
    that contains it, is not reversed, and is longer than the span by at most
    twice the padding. *)
Theorem segment_encloses_span (P : Pydub) (total msl thresh keep : Z) (j : nat)
    (a b : Z) :
  detect_nonsilent P (recording total) msl thresh !! j = Some (a, b) →
  0 ≤ keep → 0 ≤ a → a ≤ b → b ≤ total →
  ∃ seg,
    split_on_silence P (recording total) msl thresh keep !! j = Some seg
    ∧ start_ms seg ≤ a ∧ b ≤ end_ms seg
    ∧ start_ms seg ≤ end_ms seg
    ∧ end_ms seg - start_ms seg ≤ (b - a) + 2 * keep.
Proof.
  intros Hspan Hkeep Ha Hab Hb.
  rewrite split_on_silence_ranges, list_lookup_fmap, Hspan. cbn.
  eexists. split; [reflexivity|]. cbn. lia.
Qed.

(** X4. Two spans separated by a silent gap are emitted as ranges that do
    not overlap exactly when the gap is at least twice the padding: with a
    shorter gap the padded ranges share audio. *)
Theorem segments_disjoint_iff_gap (P : Pydub) (total msl thresh keep : Z)
    (j1 j2 : nat) (a1 b1 a2 b2 : Z) (seg1 seg2 : AudioSegment) :
  detect_nonsilent P (recording total) msl thresh !! j1 = Some (a1, b1) →
  detect_nonsilent P (recording total) msl thresh !! j2 = Some (a2, b2) →
  split_on_silence P (recording total) msl thresh keep !! j1 = Some seg1 →
  split_on_silence P (recording total) msl thresh keep !! j2 = Some seg2 →
  0 ≤ keep → 0 < b1 → b1 ≤ a2 → a2 ≤ total →
  (end_ms seg1 ≤ start_ms seg2 ↔ b1 + 2 * keep ≤ a2).
Proof.
  intros Hs1 Hs2. rewrite split_on_silence_ranges, !list_lookup_fmap, Hs1, Hs2. cbn.
  intros [= <-] [= <-] Hkeep Hb1 Hgap Ha2. cbn. lia.
Qed.

(** ** Further properties of the orchestrator *)

Lemma resolve_segment_log E input_path key i tf_name :
  ∃ reads,
    (resolve_segment E input_path key i tf_name).1
    = (if key_given key then [CallFingerprint tf_name] else []) ++ reads
    ∧ (reads = [] ∨ (reads = [CallReadTags input_path] ∧ i = 0%nat)).
Proof.
  unfold resolve_segment, fingerprint_tier, tag_tier.
  destruct (key_given key).
  - destruct (fingerprint_and_lookup_returns (acoustid E) i tf_name key) as [m1 ->].
    destruct m1 as [m|]; cbn; [exists []; by split; [|left]|].
    case_bool_decide; cbn; [|exists []; by split; [|left]].
    exists [CallReadTags input_path]. split; [done | by right].
  - case_bool_decide; cbn; [|exists []; by split; [|left]].
    exists [CallReadTags input_path]. split; [done | by right].
Qed.

(** The calls the loop adds to the trace. *)
Lemma process_segments_calls E input_path key segments :
  ∀ i st,
    ∃ added,
      calls (process_segments E input_path key i segments st).1 = calls st ++ added
      ∧ (key_given key = false → Forall (fun c => is_read_tags c = true) added)
      ∧ Forall (fun c => is_read_tags c = true → c = CallReadTags input_path) added
      ∧ (length (List.filter is_read_tags added) ≤ (if i is O then 1 else 0))%nat.
Proof.
  induction segments as [|seg rest IH]; intros i st; cbn.
  - exists []. rewrite app_nil_r. repeat split; try done. cbn. destruct i; lia.
  - assert (Hnone : ∃ added : list call,
              calls st = calls st ++ added
              ∧ (key_given key = false → Forall (fun c => is_read_tags c = true) added)
              ∧ Forall (fun c => is_read_tags c = true → c = CallReadTags input_path) added
              ∧ (length (List.filter is_read_tags added) ≤ (if i is O then 1 else 0))%nat).
    { exists []. rewrite app_nil_r. repeat split; try done. cbn. destruct i; lia. }
    destruct (NamedTemporaryFile (os E) i) as [tf|e]; cbn; [|exact Hnone].
    destruct (export (pydub E) i seg tf) as [[]|e]; cbn; [|exact Hnone].
    destruct (resolve_segment_log E input_path key i tf) as (reads & Hlog & Hreads).
    destruct (resolve_segment E input_path key i tf) as [log resolved]. cbn in Hlog.
    assert (Hown :
      (key_given key = false → Forall (fun c => is_read_tags c = true) log)
      ∧ Forall (fun c => is_read_tags c = true → c = CallReadTags input_path) log
      ∧ (length (List.filter is_read_tags log) ≤ (if i is O then 1 else 0))%nat).
    { subst log. destruct Hreads as [-> | [-> ->]]; destruct (key_given key); cbn;
        repeat split; try done; try (destruct i; lia); try lia;
        repeat constructor; done. }
    destruct Hown as (Hkey & Hpath & Hcount).
    destruct resolved as [q|e]; cbn.
    + match goal with
      | |- context [process_segments E input_path key (S i) rest ?s] =>
          destruct (IH (S i) s) as (added & -> & Hkey' & Hpath' & Hcount')
      end.
      cbn. exists (log ++ added). rewrite app_assoc. split; [done|].
      split; [intros Hk; apply Forall_app; auto|].
      split; [by apply Forall_app|].
      rewrite List.filter_app, length_app. cbn in Hcount'. lia.
    + exists log. by repeat split.
Qed.

Lemma process_file_trace E input_path output_path key msl thresh keep disk0 :
  (key_given key = false →
   Forall (fun c => is_read_tags c = true)
          (trace (process_file E input_path output_path key msl thresh keep disk0)))
  ∧ Forall (fun c => is_read_tags c = true → c = CallReadTags input_path)
           (trace (process_file E input_path output_path key msl thresh keep disk0))
  ∧ (length (List.filter is_read_tags
               (trace (process_file E input_path output_path key msl thresh keep disk0)))
     ≤ 1)%nat.
Proof.
  unfold process_file.
  destruct (from_file (pydub E) input_path) as [total|e]; cbn;
    [|repeat split; try done; lia].
  set (segments := segments_of _ _ _ _ _).
  set (st0 := {| queries := []; temp_files := []; disk := disk0; calls := [] |}).
  destruct (process_segments_calls E input_path key segments 0 st0)
    as (added & Hcalls & Hprops).
  destruct (process_segments E input_path key 0 segments st0) as [st looped].
  cbn in Hcalls. subst added.
  destruct looped as [[]|e]; cbn; [|exact Hprops].
  destruct (open_output (os E) output_path) as [[]|e]; cbn; [|exact Hprops].
  destruct (write_lines (queries st)) as [lines wrote]. exact Hprops.
Qed.

(** X5. Without a key, or with an empty one, a run makes no call to the
    fingerprint tier, and every query after the first is the placeholder of
    its segment. *)
Theorem no_key_no_fingerprint (E : Env) (input_path output_path : string)
    (key : option string) (msl thresh keep : Z) (disk0 : gset string) :
  key_given key = false →
  (∀ p, CallFingerprint p
        ∉ trace (process_file E input_path output_path key msl thresh keep disk0))
  ∧ (∀ qs j q,
       outcome (process_file E input_path output_path key msl thresh keep disk0) = Ret qs →
       qs !! j = Some q → (0 < j)%nat → q = placeholder (Z.of_nat j)).
Proof.
  intros Hkey. split.
  - intros p Hin.
    destruct (process_file_trace E input_path output_path key msl thresh keep disk0)
      as (Hreads & _).
    specialize (Hreads Hkey). rewrite Forall_forall in Hreads.
    by apply Hreads in Hin.
  - intros qs j q (total & _ & Hfrom & _)%process_file_outcome Hq Hj.
    destruct (queries_from_lookup _ _ _ _ _ _ Hfrom) as [Hlen Hat].
    destruct (lookup_lt_is_Some_2
                (segments_of (pydub E) (recording total) msl thresh keep) j) as [seg Hseg].
    { rewrite <- Hlen. by apply lookup_lt_Some in Hq. }
    destruct (Hat j seg Hseg) as (q' & Hq' & Hquery). rewrite Hq in Hq'.
    injection Hq' as <-. cbn in Hquery. unfold segment_query in Hquery.
    bind_inv Hquery as tf Htf. bind_inv Hquery as u Hu.
    destruct (resolve_segment_outcome E input_path key j tf)
      as (looked_up & meta & Htier & Hres & Hmeta).
    rewrite Hres in Hquery. injection Hquery as <-.
    unfold fingerprint_tier in Htier. rewrite Hkey in Htier. injection Htier as <-.
    rewrite bool_decide_eq_false_2 in Hmeta by lia. by subst meta.
Qed.

(** X6. A run reads the tags at most once, and only from the input file. *)
Theorem tags_read_at_most_once (E : Env) (input_path output_path : string)
    (key : option string) (msl thresh keep : Z) (disk0 : gset string) :
  (length (List.filter is_read_tags
             (trace (process_file E input_path output_path key msl thresh keep disk0)))
   ≤ 1)%nat
  ∧ ∀ p, CallReadTags p
         ∈ trace (process_file E input_path output_path key msl thresh keep disk0) →
         p = input_path.
Proof.
  destruct (process_file_trace E input_path output_path key msl thresh keep disk0)
    as (_ & Hpath & Hcount).
  split; [exact Hcount|]. intros p Hin.
  rewrite Forall_forall in Hpath.
  pose proof (Hpath _ Hin eq_refl) as Heq. by injection Heq.
Qed.

(** X7. The output file is opened only after the loop over the segments
    has come to its end.  When loading the capture raises, or when the loop
    raises (a temporary file cannot be created, a segment cannot be
    exported), the run raises the same exception and the output file is
    left untouched; so an output file that was opened tells that the capture
    loaded and that every segment gave its query.  A run that returns has
    written one line per query. *)
Theorem output_opened_after_loop (E : Env) (input_path output_path : string)
    (key : option string) (msl thresh keep : Z) (disk0 : gset string) :
  (∀ e, from_file (pydub E) input_path = Raise e →
        outcome (process_file E input_path output_path key msl thresh keep disk0)
        = Raise e
        ∧ written (process_file E input_path output_path key msl thresh keep disk0)
          = None)
  ∧ (∀ total e,
       from_file (pydub E) input_path = Ret total →
       (process_segments E input_path key 0
          (segments_of (pydub E) (recording total) msl thresh keep)
          {| queries := []; temp_files := []; disk := disk0; calls := [] |}).2
       = Raise e →
       outcome (process_file E input_path output_path key msl thresh keep disk0)
       = Raise e
       ∧ written (process_file E input_path output_path key msl thresh keep disk0)
         = None)
  ∧ (∀ lines,
       written (process_file E input_path output_path key msl thresh keep disk0)
       = Some lines →
       ∃ total,
         from_file (pydub E) input_path = Ret total
         ∧ (process_segments E input_path key 0
              (segments_of (pydub E) (recording total) msl thresh keep)
              {| queries := []; temp_files := []; disk := disk0; calls := [] |}).2
           = Ret ())
  ∧ (∀ qs, outcome (process_file E input_path output_path key msl thresh keep disk0)
           = Ret qs →
           ∃ lines,
             written (process_file E input_path output_path key msl thresh keep disk0)
             = Some lines
             ∧ length lines = length qs).
Proof.
  split; [|split; [|split]].
  - intros e He. unfold process_file. by rewrite He.
  - intros total e Htotal Hloop. unfold process_file. rewrite Htotal.
    destruct (process_segments _ _ _ _ _ _) as [st looped]. cbn in Hloop.
    by rewrite Hloop.
  - intros lines. unfold process_file.
    destruct (from_file (pydub E) input_path) as [total|e]; cbn; [|discriminate].
    intros Hwritten. exists total. split; [reflexivity|]. revert Hwritten.
    destruct (process_segments _ _ _ _ _ _) as [st [[]|e]]; cbn;
      [reflexivity | discriminate].
  - intros qs Hout. eexists. split; [by apply process_file_written|].
    by rewrite length_map.
Qed.

(** ** Further properties of the tag tier and of the entry point *)

Lemma assoc_present key tags v :
  assoc key tags = Some v → has_key key tags = true ∧ dict_get tags key PNone = v.
Proof. unfold has_key, dict_get. by intros ->. Qed.

Lemma has_key_absent key tags :
  has_key key tags = false → dict_get tags key PNone = PNone.
Proof. unfold has_key, dict_get. by destruct (assoc key tags). Qed.

(** X8. The ID3 frames win over the generic keys: when [TIT2] and [TPE1]
    render as non-empty text that text is the candidate, whatever [title]
    and [artist] hold.  Without a title (no [TIT2], and no or an empty
    [title]) there is no candidate, even when the file names an artist. *)
Theorem id3_frames_take_precedence (M : Mutagen) (path : string) (m : pyfile)
    (tags : list (string * pyval)) :
  mutagen_installed M = true →
  MutagenFile M path = Ret m →
  usable_tags m = Some tags →
  (∀ v w,
     assoc "TIT2" tags = Some v → assoc "TPE1" tags = Some w →
     py_str v ≠ "" → py_str w ≠ "" →
     read_tags M path = Ret (Some (PStr (py_str v), PStr (py_str w))))
  ∧ (has_key "TIT2" tags = false →
     truthy (dict_get tags "title" PNone) = false →
     read_tags M path = Ret None).
Proof.
  intros Hinst Hfile Htags. unfold read_tags. rewrite Hinst, Hfile. cbn.
  rewrite Htags. split.
  - intros v w [Hk1 Hv]%assoc_present [Hk2 Hw]%assoc_present Hvs Hws.
    unfold tags_metadata, selected_title, selected_artist. cbv zeta.
    rewrite Hk1, Hk2, Hv, Hw.
    destruct (py_str v) as [|c sv]; [done|].
    destruct (py_str w) as [|d sw]; [done|]. reflexivity.
  - intros Hno Hfalsy. unfold tags_metadata, selected_title. cbv zeta.
    rewrite Hno, (has_key_absent _ _ Hno). cbn. unfold py_or. rewrite Hfalsy. cbn.
    by destruct (normalize (selected_artist tags)).
Qed.

(** X9. [main] returns 2 without processing anything when the input file
    does not exist; otherwise it returns 0 exactly when [process_file]
    returns, and then the lines it prints are the lines written to the output
    file, less their line ends.  It returns no other code. *)
Theorem main_exit_codes (E : Env) (path_exists : string → bool) (args : Args)
    (disk0 : gset string) :
  (path_exists (arg_input args) = false →
   exit_code (main E path_exists args disk0) = Ret 2
   ∧ processed (main E path_exists args disk0) = None
   ∧ printed (main E path_exists args disk0) = [])
  ∧ (∀ code, exit_code (main E path_exists args disk0) = Ret code → code = 0 ∨ code = 2)
  ∧ (exit_code (main E path_exists args disk0) = Ret 0 ↔
     path_exists (arg_input args) = true
     ∧ ∃ qs, outcome (process_file E (arg_input args) (arg_output args)
                        (arg_acoustid_key args) (arg_min_silence_ms args)
                        (arg_silence_thresh_db args) (arg_keep_silence_ms args) disk0)
             = Ret qs)
  ∧ (exit_code (main E path_exists args disk0) = Ret 0 →
     ∃ r, processed (main E path_exists args disk0) = Some r
          ∧ written r
            = Some (map (fun l => l +:+ newline) (printed (main E path_exists args disk0)))).
Proof.
  unfold main. destruct (path_exists (arg_input args)); cbv zeta.
  - destruct (outcome (process_file _ _ _ _ _ _ _ _)) as [qs|e] eqn:Hout; cbn.
    + split; [done|]. split; [intros code [= <-]; by left|].
      split; [split; [by eauto | done]|].
      intros _. eexists. split; [reflexivity|].
      rewrite (process_file_written _ _ _ _ _ _ _ _ _ Hout). by rewrite map_map.
    + split; [done|]. split; [done|]. split; [|done].
      split; [done | by intros (_ & qs & [=])].
  - split; [done|]. split; [intros code [= <-]; by right|].
    split; [split; [done | by intros ([=] & _)] | done].
Qed.

(** ** Further properties of the playlist step *)

Lemma bind_Raise {A B} (m : res A) (f : A → res B) (e : exn) :
  m ≫= f = Raise e → m = Raise e ∨ ∃ a, m = Ret a ∧ f a = Raise e.
Proof. destruct m as [a|e']; cbn; [eauto | intros [= ->]; by left]. Qed.

Lemma py_get_default_error v key d e :
  py_get_default v key d = Raise e → e ≠ SpotifyException.
Proof. destruct v; cbn; intros [= <-]; discriminate. Qed.

Lemma py_getitem0_error v e : py_getitem0 v = Raise e → e ≠ SpotifyException.
Proof.
  destruct v as [|s| |[|x l]|[|x l]|]; cbn; try (intros [= <-]; discriminate).
  destruct s; cbn; intros [= <-]; discriminate.
Qed.

Lemma py_getitem_error v key e : py_getitem v key = Raise e → e ≠ SpotifyException.
Proof.
  destruct v as [| | | | |entries]; cbn; try (intros [= <-]; discriminate).
  destruct (assoc key entries); intros [= <-]; discriminate.
Qed.

Lemma py_iter_error v e : py_iter v = Raise e → e ≠ SpotifyException.
Proof. destruct v; cbn; intros [= <-]; discriminate. Qed.

Lemma all_returned_error {A B} (f : A → res B) (l : list A) e :
  (∀ a e', f a = Raise e' → e' ≠ SpotifyException) →
  all_returned (map f l) = Raise e → e ≠ SpotifyException.
Proof.
  intros Hf. induction l as [|a l IH]; cbn; [discriminate|].
  intros [Ha | (x & _ & [Hl | (xs & _ & [=])]%bind_Raise)]%bind_Raise.
  - by apply (Hf a).
  - by apply IH.
Qed.

Lemma as_str_error v e : as_str v = Raise e → e ≠ SpotifyException.
Proof. destruct v; cbn; intros [= <-]; discriminate. Qed.

(** Reading a search result never raises a [SpotifyException]. *)
Lemma first_uri_error result e : first_uri result = Raise e → e ≠ SpotifyException.
Proof.
  unfold first_uri.
  intros [H | (tracks & _ & [H | (items & _ & H)]%bind_Raise)]%bind_Raise;
    try by apply py_get_default_error in H.
  destruct (truthy items); [|discriminate].
  apply bind_Raise in H as [H | (track & _ & H)]; [by apply py_getitem0_error in H|].
  apply bind_Raise in H as [H | (uri & _ & H)]; [by apply py_getitem_error in H|].
  apply bind_Raise in H as [H | (listed & _ & H)]; [by apply py_get_default_error in H|].
  apply bind_Raise in H as [H | (artists & _ & H)]; [by apply py_iter_error in H|].
  apply bind_Raise in H as [H | (names & _ & H)].
  { apply all_returned_error in H; [done|]. intros a e'. apply py_getitem_error. }
  apply bind_Raise in H as [H | (joined & _ & H)].
  { unfold py_join in H. apply bind_Raise in H as [H | (parts & _ & [=])].
    apply all_returned_error in H; [done|]. apply as_str_error. }
  apply bind_Raise in H as [H | (name & _ & [=])]. by apply py_getitem_error in H.
Qed.

Lemma collect_uris_matched sp queries :
  ∀ i uris,
    (∀ j q, queries !! j = Some q → is_blank q = false → search_behaves sp (i + j) q) →
    collect_uris sp i queries uris
    = (ApiSearch <$> filter (fun q => is_blank q = false) queries,
       Ret (uris ++ matched_uris sp i queries)).
Proof.
  induction queries as [|q rest IH]; intros i uris Hok; [cbn; by rewrite app_nil_r|].
  rewrite filter_cons. cbn [collect_uris matched_uris].
  assert (Hrest : ∀ j q', rest !! j = Some q' → is_blank q' = false →
                          search_behaves sp (S i + j) q').
  { intros j q' Hj Hb. replace (S i + j)%nat with (i + S j)%nat by lia. by apply Hok. }
  destruct (is_blank q) eqn:Hq.
  - rewrite decide_False by done. by apply IH.
  - rewrite decide_True by done.
    destruct (Hok 0%nat q eq_refl Hq) as [Hraise | (result & found & Hres & Hfound)];
      rewrite Nat.add_0_r in *.
    + rewrite Hraise. cbn. by rewrite (IH (S i) uris Hrest).
    + rewrite Hres. cbn. rewrite Hfound. cbn.
      rewrite (IH (S i) _ Hrest). cbn. destruct found; cbn; [|done].
      by rewrite <- app_assoc.
Qed.

(** X10. When the playlist is created and every search raises a
    [SpotifyException] or returns a readable result, the items added are the
    URIs of the first item of each search that matched, in the order of the
    queries, duplicates included.  They are added in one call, made after
    the last search, and no call is made when nothing matched. *)
Theorem added_items (sp : Spotify) (user_id playlist_name : string)
    (song_queries : list string) (playlist : pyval) :
  user_playlist_create sp user_id playlist_name = Ret playlist →
  (∀ j q, song_queries !! j = Some q → is_blank q = false → search_behaves sp j q) →
  (matched_uris sp 0 song_queries = [] →
   create_playlist_and_add_tracks sp user_id playlist_name song_queries
   = (ApiCreate user_id playlist_name
      :: (ApiSearch <$> filter (fun q => is_blank q = false) song_queries),
      Ret playlist))
  ∧ (matched_uris sp 0 song_queries ≠ [] →
     ∀ playlist_id, py_getitem playlist "id" = Ret playlist_id →
       create_playlist_and_add_tracks sp user_id playlist_name song_queries
       = (ApiCreate user_id playlist_name
          :: (ApiSearch <$> filter (fun q => is_blank q = false) song_queries)
          ++ [ApiAddItems playlist_id (matched_uris sp 0 song_queries)],
          _ ← playlist_add_items sp playlist_id (matched_uris sp 0 song_queries);
          Ret playlist)).
Proof.
  intros Hcreate Hsearch. unfold create_playlist_and_add_tracks.
  rewrite Hcreate, (collect_uris_matched sp song_queries 0 [] Hsearch). cbn.
  split.
  - by intros ->.
  - intros Hsome id Hid.
    destruct (matched_uris sp 0 song_queries) as [|uri uris]; [done|].
    by rewrite Hid.
Qed.

Lemma collect_uris_aborts sp queries :
  ∀ i uris j q e,
    (∀ j' q', (j' < j)%nat → queries !! j' = Some q' → is_blank q' = false →
              search_behaves sp (i + j') q') →
    queries !! j = Some q → is_blank q = false →
    search_breaks sp (i + j) q e →
    collect_uris sp i queries uris
    = (ApiSearch <$> filter (fun q => is_blank q = false) (take (S j) queries), Raise e).
Proof.
  induction queries as [|q0 rest IH]; intros i uris j q e Hearlier Hj Hq Hbreak;
    [by rewrite lookup_nil in Hj|].
  rewrite firstn_cons, filter_cons. cbn [collect_uris].
  destruct j as [|j]; cbn in Hj.
  - injection Hj as ->. rewrite Hq, decide_True by done. rewrite Nat.add_0_r in Hbreak.
    rewrite take_0, filter_nil.
    destruct Hbreak as [[Hraise Hne] | (result & Hres & Hread)].
    + rewrite Hraise. cbn. by destruct e.
    + rewrite Hres. cbn. rewrite Hread. cbn.
      pose proof (first_uri_error _ _ Hread). by destruct e.
  - assert (Hrest : ∀ j' q', (j' < j)%nat → rest !! j' = Some q' → is_blank q' = false →
                             search_behaves sp (S i + j') q').
    { intros j' q' Hlt Hj' Hb. replace (S i + j')%nat with (i + S j')%nat by lia.
      apply Hearlier; [lia | done | done]. }
    replace (i + S j)%nat with (S i + j)%nat in Hbreak by lia.
    destruct (is_blank q0) eqn:Hq0.
    + rewrite decide_False by done. by apply (IH (S i) uris j q e).
    + rewrite decide_True by done.
      destruct (Hearlier 0%nat q0 ltac:(lia) eq_refl Hq0)
        as [Hraise | (result & found & Hres & Hfound)]; rewrite Nat.add_0_r in *.
      * rewrite Hraise. cbn. by rewrite (IH (S i) uris j q e Hrest Hj Hq Hbreak).
      * rewrite Hres. cbn. rewrite Hfound. cbn.
        by rewrite (IH (S i) _ j q e Hrest Hj Hq Hbreak).
Qed.

(** X11. A search that raises another exception than [SpotifyException],
    or returns a result that cannot be read, ends the call with that
    exception: the later queries are not searched for and nothing is added
    to the playlist, which stays created, whatever the earlier searches
    found. *)
Theorem broken_search_adds_nothing (sp : Spotify) (user_id playlist_name : string)
    (song_queries : list string) (playlist : pyval) (j : nat) (q : string) (e : exn) :
  user_playlist_create sp user_id playlist_name = Ret playlist →
  (∀ j' q', (j' < j)%nat → song_queries !! j' = Some q' → is_blank q' = false →
            search_behaves sp j' q') →
  song_queries !! j = Some q → is_blank q = false →
  search_breaks sp j q e →
  create_playlist_and_add_tracks sp user_id playlist_name song_queries
  = (ApiCreate user_id playlist_name
     :: (ApiSearch <$> filter (fun q => is_blank q = false) (take (S j) song_queries)),
     Raise e).
Proof.
  intros Hcreate Hearlier Hj Hq Hbreak. unfold create_playlist_and_add_tracks.
  rewrite Hcreate.
  by rewrite (collect_uris_aborts sp song_queries 0 [] j q e Hearlier Hj Hq Hbreak).
Qed.

Lemma only_spaces_app s t : only_spaces (s +:+ t) = only_spaces s && only_spaces t.
Proof.
  induction s as [|c s IH]; [done|].
  change (is_space c && only_spaces (s +:+ t)
          = is_space c && only_spaces s && only_spaces t).
  rewrite IH. by rewrite andb_assoc.
Qed.

Lemma create_playlist_searched sp user_id playlist_name song_queries playlist :
  user_playlist_create sp user_id playlist_name = Ret playlist →
  (∀ j q, song_queries !! j = Some q → is_blank q = false → search_behaves sp j q) →
  searched (create_playlist_and_add_tracks sp user_id playlist_name song_queries).1
  = filter (fun q => is_blank q = false) song_queries.
Proof.
  intros Hcreate Hsearch. unfold create_playlist_and_add_tracks.
  rewrite Hcreate, (collect_uris_matched sp song_queries 0 [] Hsearch). cbn.
  destruct (matched_uris sp 0 song_queries) as [|uri uris]; cbn;
    [apply searched_fmap|].
  destruct (py_getitem playlist "id") as [id|e]; cbn; [|apply searched_fmap].
  unfold searched. rewrite omap_app. cbn. rewrite app_nil_r. apply searched_fmap.
Qed.

(** X12. The playlist step searches for every placeholder it is given, and
    for every query built from a title that has a character other than white
    space: such queries are never skipped as blank. *)
Theorem resolved_queries_are_searched (sp : Spotify) (user_id playlist_name : string)
    (song_queries : list string) (playlist : pyval)
    (meta : option metadata) (i : Z) (s : string) :
  user_playlist_create sp user_id playlist_name = Ret playlist →
  (∀ j q, song_queries !! j = Some q → is_blank q = false → search_behaves sp j q) →
  meta = None ∨ (∃ title artist, meta = Some (PStr title, PStr artist)
                                 ∧ only_spaces title = false) →
  make_query_from_metadata meta i = PStr s →
  s ∈ song_queries →
  s ∈ searched (create_playlist_and_add_tracks sp user_id playlist_name song_queries).1.
Proof.
  intros Hcreate Hsearch Hmeta Hquery Hin.
  rewrite (create_playlist_searched _ _ _ _ _ Hcreate Hsearch).
  apply list_elem_of_filter. split; [|exact Hin].
  rewrite is_blank_spaces.
  destruct Hmeta as [-> | (title & artist & -> & Htitle)].
  - cbn in Hquery. injection Hquery as <-. reflexivity.
  - cbn in Hquery. destruct title as [|c title]; [discriminate|].
    cbn in Hquery. destruct artist as [|d artist]; cbn in Hquery; injection Hquery as <-.
    + exact Htitle.
    + change (only_spaces (String c title +:+ " - " +:+ String d artist) = false).
      by rewrite only_spaces_app, Htitle.
Qed.

(** ** Properties of the ShazamKit wrapper *)

Lemma lstrip_head s c rest : lstrip s = String c rest → is_space c = false.
Proof.
  induction s as [|d s IH]; cbn; [discriminate|].
  destruct (is_space d) eqn:Hd; [exact IH | by intros [= <- _]].
Qed.

Lemma lstrip_unspaced c rest : is_space c = false → lstrip (String c rest) = String c rest.
Proof. cbn. by intros ->. Qed.

Lemma rstrip_head c rest :
  is_space c = false → ∃ kept, rstrip (String c rest) = String c kept.
Proof.
  intros Hc. cbn. destruct (rstrip rest); [rewrite Hc|]; by eexists.
Qed.

Lemma rstrip_idempotent s : rstrip (rstrip s) = rstrip s.
Proof.
  induction s as [|c s IH]; [done|]. cbn.
  destruct (rstrip s) as [|d kept] eqn:Hs.
  - destruct (is_space c) eqn:Hc; [done|]. cbn. by rewrite Hc.
  - change (rstrip (String c (String d kept)) = String c (String d kept)).
    cbn [rstrip] in *. by rewrite IH.
Qed.

Lemma py_strip_idempotent s : py_strip (py_strip s) = py_strip s.
Proof.
  unfold py_strip. destruct (lstrip s) as [|c rest] eqn:Hs; [done|].
  pose proof (lstrip_head _ _ _ Hs) as Hc.
  destruct (rstrip_head c rest Hc) as [kept Hkept]. rewrite Hkept.
  rewrite (lstrip_unspaced c kept Hc), <- Hkept. apply rstrip_idempotent.
Qed.

Lemma has_linebreak_app s t :
  has_linebreak (s +:+ t) = has_linebreak s || has_linebreak t.
Proof.
  induction s as [|c s IH]; [done|].
  change (is_linebreak c || has_linebreak (s +:+ t)
          = is_linebreak c || has_linebreak s || has_linebreak t).
  rewrite IH. by rewrite orb_assoc.
Qed.

Lemma has_linebreak_lstrip s : has_linebreak s = false → has_linebreak (lstrip s) = false.
Proof.
  induction s as [|c s IH]; [done|]. cbn.
  intros [Hc Hs]%orb_false_elim. destruct (is_space c); [by apply IH|].
  cbn. by rewrite Hc, Hs.
Qed.

Lemma has_linebreak_rstrip s : has_linebreak s = false → has_linebreak (rstrip s) = false.
Proof.
  induction s as [|c s IH]; [done|]. cbn.
  intros [Hc Hs]%orb_false_elim. specialize (IH Hs).
  destruct (rstrip s) as [|d kept]; cbn.
  - destruct (is_space c); cbn; [done | by rewrite Hc].
  - cbn in IH. by rewrite Hc, IH.
Qed.

Lemma splitlines_from_unbroken n :
  ∀ s cur, (String.length s ≤ n)%nat → has_linebreak cur = false →
           Forall (fun l => has_linebreak l = false) (splitlines_from cur s).
Proof.
  assert (Hend : ∀ cur, has_linebreak cur = false →
                        Forall (fun l => has_linebreak l = false)
                               (match cur with EmptyString => [] | _ => [cur] end)).
  { intros cur Hcur. destruct cur; [constructor | by repeat constructor]. }
  induction n as [|n IH]; intros s cur Hlen Hcur; destruct s as [|c s];
    cbn [splitlines_from]; try by apply Hend.
  { cbn in Hlen. lia. }
  cbn in Hlen. destruct (is_linebreak c) eqn:Hc.
  - constructor; [exact Hcur|].
    destruct s as [|d s']; [by apply IH; [cbn; lia|]|].
    cbn in Hlen.
    destruct ((Ascii.nat_of_ascii c =? 13)%nat && (Ascii.nat_of_ascii d =? 10)%nat);
      apply IH; cbn; try done; lia.
  - apply IH; [lia|]. rewrite has_linebreak_app. cbn. by rewrite Hcur, Hc.
Qed.

Lemma py_splitlines_unbroken s :
  Forall (fun l => has_linebreak l = false) (py_splitlines s).
Proof. by apply (splitlines_from_unbroken (String.length s)). Qed.

Lemma py_strip_unbroken l : has_linebreak l = false → has_linebreak (py_strip l) = false.
Proof. intros Hl. by apply has_linebreak_rstrip, has_linebreak_lstrip. Qed.

Lemma is_blank_strip l : is_blank l = String.eqb (py_strip l) "".
Proof. unfold is_blank. by destruct l. Qed.

Lemma kept_lines_filter ls :
  List.filter (fun l => negb (String.eqb (py_strip l) "")) ls
  = filter (fun l => is_blank l = false) ls.
Proof.
  induction ls as [|l ls IH]; [done|].
  rewrite filter_cons, <- IH, is_blank_strip. cbn [List.filter].
  destruct (String.eqb (py_strip l) ""); cbn [negb];
    [by rewrite decide_False | by rewrite decide_True].
Qed.

Lemma run_shazam_cli_lines H exe_path input_path lines :
  run_shazam_cli H exe_path input_path = Ret lines →
  ∃ proc,
    run_process H exe_path input_path = Ret proc
    ∧ returncode proc = 0
    ∧ lines = py_strip <$> filter (fun l => is_blank l = false)
                                  (py_splitlines (stdout proc)).
Proof.
  unfold run_shazam_cli. intros Hrun. bind_inv Hrun as proc Hproc.
  destruct (returncode proc =? 0) eqn:Hcode; [|discriminate].
  injection Hrun as <-. exists proc. rewrite kept_lines_filter.
  by apply Z.eqb_eq in Hcode.
Qed.

Lemma kept_lines_clean text l :
  l ∈ py_strip <$> filter (fun l => is_blank l = false) (py_splitlines text) →
  l ≠ "" ∧ py_strip l = l ∧ is_blank l = false ∧ has_linebreak l = false.
Proof.
  intros (l0 & -> & [Hl0 Hin]%list_elem_of_filter)%list_elem_of_fmap.
  rewrite is_blank_strip in Hl0. repeat split.
  - intros Heq. by rewrite Heq in Hl0.
  - apply py_strip_idempotent.
  - by rewrite is_blank_strip, py_strip_idempotent.
  - apply py_strip_unbroken.
    pose proof (py_splitlines_unbroken text) as Hall.
    rewrite Forall_forall in Hall. by apply Hall.
Qed.

(** X13. [run_shazam_cli] raises when the tool ends with a code other than
    0, whatever it printed.  Otherwise it returns, in their order, the lines
    of the output that are not blank: each without white space at its ends,
    not empty, and without a line break inside. *)
Theorem shazam_lines_clean (H : Host) (exe_path input_path : string)
    (proc : completed_process) :
  run_process H exe_path input_path = Ret proc →
  (returncode proc ≠ 0 → run_shazam_cli H exe_path input_path = Raise OtherError)
  ∧ (returncode proc = 0 →
     ∃ lines,
       run_shazam_cli H exe_path input_path = Ret lines
       ∧ lines = py_strip <$> filter (fun l => is_blank l = false)
                                     (py_splitlines (stdout proc))
       ∧ ∀ l, l ∈ lines →
              l ≠ "" ∧ py_strip l = l ∧ is_blank l = false ∧ has_linebreak l = false).
Proof.
  intros Hproc. split.
  - intros Hcode. unfold run_shazam_cli. rewrite Hproc. cbn.
    by rewrite (proj2 (Z.eqb_neq _ _) Hcode).
  - intros Hcode. eexists. split; [|split; [reflexivity|]].
    + unfold run_shazam_cli. rewrite Hproc. cbn. rewrite Hcode. cbn.
      by rewrite kept_lines_filter.
    + apply kept_lines_clean.
Qed.

Lemma os_path_join_app a p1 p2 :
  os_path_join (os_path_join a p1) p2 = os_path_join a (p1 ++ p2).
Proof. unfold os_path_join. by rewrite foldl_app. Qed.

(** X14. A build that succeeds returns the very path [main] looked for
    before building, so the tool that is run is the one under the working
    directory; the build was run in the package directory and left the tool
    there.  Without [swift] on the path the build raises. *)
Theorem built_path_is_located_path (H : Host) (workdir : string) :
  (∀ exe_path,
     build_shazam_cli H workdir = Ret exe_path →
     exe_path
     = os_path_join workdir ["tools"; "shazam_cli"; ".build"; "release"; "shazamcli"]
     ∧ path_exists_built H exe_path = true
     ∧ swift_build H (os_path_join workdir ["tools"; "shazam_cli"]) = Ret ())
  ∧ (which H "swift" = None → build_shazam_cli H workdir = Raise OtherError).
Proof.
  unfold build_shazam_cli. cbv zeta. split.
  - intros exe_path. destruct (which H "swift"); [|discriminate].
    destruct (swift_build H _) as [[]|e]; cbn [mbind res_bind]; [|discriminate].
    rewrite os_path_join_app. cbn [app].
    destruct (path_exists_built H _) eqn:Hexists; [|discriminate].
    intros [= <-]. by repeat split.
  - by intros ->.
Qed.

(** X15. The wrapper's [main] returns 3 off macOS, before anything else is
    looked at; it returns only the codes 0, 2, 3, 4 and 5; it writes the
    output file exactly when it returns 0, and then with the lines the tool
    gave; it builds only when asked to or when the tool is missing. *)
Theorem shazam_main_exit_codes (H : Host) (args : shazam_args) :
  (String.eqb (platform_system H) "Darwin" = false →
   shazam_main H args
   = {| sh_exit := Ret 3; sh_built := false; sh_ran := false; sh_written := None |})
  ∧ (∀ code, sh_exit (shazam_main H args) = Ret code →
             code = 0 ∨ code = 2 ∨ code = 3 ∨ code = 4 ∨ code = 5)
  ∧ (sh_written (shazam_main H args) ≠ None ↔ sh_exit (shazam_main H args) = Ret 0)
  ∧ (∀ written_lines,
       sh_written (shazam_main H args) = Some written_lines →
       ∃ exe_path lines,
         run_shazam_cli H exe_path (sh_input args) = Ret lines
         ∧ written_lines = map (fun l => l +:+ newline) lines)
  ∧ (sh_built (shazam_main H args) = true →
     sh_rebuild args = true
     ∨ path_exists_before H
         (os_path_join (getcwd H)
            ["tools"; "shazam_cli"; ".build"; "release"; "shazamcli"]) = false).
Proof.
  unfold shazam_main. cbv zeta.
  destruct (String.eqb (platform_system H) "Darwin"); cbn [negb].
  2: { repeat split; try done; try (intros code [= <-]; auto);
       try (by intros [=]); try (by intros Hne; destruct Hne). }
  destruct (path_exists_before H (sh_input args)); cbn [negb].
  2: { repeat split; try done; try (intros code [= <-]; auto);
       try (by intros [=]); try (by intros Hne; destruct Hne). }
  set (exe := os_path_join (getcwd H) _).
  assert (Hbuilt : sh_rebuild args || negb (path_exists_before H exe) = true →
                   sh_rebuild args = true ∨ path_exists_before H exe = false).
  { intros [?|?%negb_true_iff]%orb_true_iff; auto. }
  destruct (if sh_rebuild args || negb (path_exists_before H exe)
            then build_shazam_cli H (getcwd H) else Ret exe) as [found|e];
    cbn [try_except mbind res_bind mret res_ret].
  2: { repeat split; try done; try (intros code [= <-]; auto);
       try (by intros [=]); try (by intros Hne; destruct Hne). }
  destruct (run_shazam_cli H found (sh_input args)) as [lines|e] eqn:Hrun;
    cbn [try_except mbind res_bind mret res_ret].
  2: { repeat split; try done; try (intros code [= <-]; auto);
       try (by intros [=]); try (by intros Hne; destruct Hne). }
  destruct (open_for_writing H (sh_output args)) as [[]|e].
  2: { repeat split; try done; try (by intros [=]); try (by intros Hne; destruct Hne). }
  repeat split; try done; try (intros code [= <-]; auto).
  by exists found, lines.
Qed.

(** X16. The playlist step takes every line [run_shazam_cli] returns: none
    is skipped as blank, and they are searched for in the order the tool
    printed them. *)
Theorem shazam_lines_all_searched (H : Host) (exe_path input_path : string)
    (lines : list string) (sp : Spotify) (user_id playlist_name : string)
    (playlist : pyval) :
  run_shazam_cli H exe_path input_path = Ret lines →
  user_playlist_create sp user_id playlist_name = Ret playlist →
  (∀ j q, lines !! j = Some q → search_behaves sp j q) →
  searched (create_playlist_and_add_tracks sp user_id playlist_name lines).1 = lines.
Proof.
  intros (proc & _ & _ & ->)%run_shazam_cli_lines Hcreate Hsearch.
  rewrite (create_playlist_searched _ _ _ _ _ Hcreate)
    by (intros j q Hj _; by apply Hsearch).
  assert (Hclean : ∀ l, l ∈ py_strip <$> filter (fun l => is_blank l = false)
                                            (py_splitlines (stdout proc)) →
                        is_blank l = false).
  { intros l Hl. by apply kept_lines_clean in Hl as (_ & _ & ? & _). }
  revert Hclean. generalize (py_strip <$> filter (fun l => is_blank l = false)
                                         (py_splitlines (stdout proc))).
  intros ls Hclean. induction ls as [|l ls IH]; [done|].
  rewrite filter_cons, decide_True by (apply Hclean; left).
  f_equal. apply IH. intros l' Hl'. apply Hclean. by right.
Qed.

Lemma process_segments_exports E input_path key segments :
  ∀ i st,
    (process_segments E input_path key i segments st).2 = Ret () →
    ∃ names,
      temp_files (process_segments E input_path key i segments st).1
      = temp_files st ++ names
      ∧ length names = length segments
      ∧ List.filter (fun c => negb (is_read_tags c))
          (calls (process_segments E input_path key i segments st).1)
        = List.filter (fun c => negb (is_read_tags c)) (calls st)
          ++ (if key_given key then CallFingerprint <$> names else []).
Proof.
  induction segments as [|seg rest IH]; intros i st; cbn.
  - intros _. exists []. destruct (key_given key); cbn; by rewrite !app_nil_r.
  - destruct (NamedTemporaryFile (os E) i) as [tf|e]; cbn; [|discriminate].
    destruct (export (pydub E) i seg tf) as [[]|e]; cbn; [|discriminate].
    destruct (resolve_segment_log E input_path key i tf) as (reads & Hlog & Hreads).
    destruct (resolve_segment E input_path key i tf) as [log [q|e]]; cbn in *;
      [|discriminate].
    intros Hret.
    match type of Hret with
    | context [process_segments E input_path key (S i) rest ?s] =>
        destruct (IH (S i) s Hret) as (names & -> & Hlen & ->)
    end.
    cbn. exists (tf :: names). rewrite <- app_assoc. split; [done|].
    split; [cbn; by rewrite Hlen|].
    rewrite List.filter_app, Hlog, List.filter_app, <- !app_assoc. f_equal.
    assert (Hnone : List.filter (fun c => negb (is_read_tags c)) reads = []).
    { by destruct Hreads as [-> | [-> _]]. }
    rewrite Hnone. by destruct (key_given key).
Qed.

(** X17. A run that returns created exactly one temporary file per query,
    and, when a key is given, called the fingerprint tier once per segment, in
    order, each time on the file exported for that segment. *)
Theorem one_export_per_segment (E : Env) (input_path output_path : string)
    (key : option string) (msl thresh keep : Z) (disk0 : gset string) (qs : list pyval) :
  outcome (process_file E input_path output_path key msl thresh keep disk0) = Ret qs →
  length (created (process_file E input_path output_path key msl thresh keep disk0))
  = length qs
  ∧ List.filter (fun c => negb (is_read_tags c))
      (trace (process_file E input_path output_path key msl thresh keep disk0))
    = (if key_given key
       then CallFingerprint
            <$> created (process_file E input_path output_path key msl thresh keep disk0)
       else []).
Proof.
  intros Hout.
  pose proof Hout as (total & Htotal & Hfrom & _ & _)%process_file_outcome.
  destruct (queries_from_lookup _ _ _ _ _ _ Hfrom) as [Hlen _].
  revert Hout. unfold process_file. rewrite Htotal.
  set (segments := segments_of _ _ _ _ _) in *.
  set (st0 := {| queries := []; temp_files := []; disk := disk0; calls := [] |}).
  pose proof (process_segments_exports E input_path key segments 0 st0) as Hexp.
  destruct (process_segments E input_path key 0 segments st0) as [st [[]|e]];
    cbn in *; [|discriminate].
  destruct (Hexp eq_refl) as (names & Htemp & Hnames & Hcalls).
  destruct (open_output (os E) output_path) as [[]|e]; cbn; [|discriminate].
  destruct (write_lines (queries st)) as [lines wrote]. cbn. intros _.
  rewrite Htemp, Hcalls. split; [lia | done].
Qed.

End Pipeline.

(** * The properties on the sample run *)

Lemma sample_schema (i : nat) : honours_schema sample_acoustid i.
Proof.
  intros key fp duration results. cbn.
  destruct i as [|i]; intros [= <-]; reflexivity.
Qed.

Lemma degenerate_segmentation_witness :
  detect_nonsilent silent_pydub (recording 10000) 1200 (-40) = []
  ∧ segments_of silent_pydub (recording 10000) 1200 (-40) 300 = [recording 10000].
Proof.
  split; [reflexivity|].
  apply (proj1 (degenerate_segmentation silent_pydub 10000 1200 (-40) 300)).
  reflexivity.
Defined.

Lemma padding_clamp_witness :
  detect_nonsilent late_pydub (recording 10000) 1200 (-40) = [(50, 4000)]
  ∧ start_ms <$> head (split_on_silence late_pydub (recording 10000) 1200 (-40) 300)
    = Some 0.
Proof.
  split; [reflexivity|].
  apply (proj2 (proj2 (padding_clamp late_pydub 10000 1200 (-40) 300)) 4000 []);
    reflexivity.
Defined.

Lemma resolution_total_witness :
  (∃ s, (resolve_segment render sample_env "capture.mp3" (Some "key") 0 "/tmp/seg0.wav").2
        = Ret (PStr s) ∧ s ≠ "")
  ∧ (resolve_segment render sample_env "capture.mp3" (Some "key") 1 "/tmp/seg1.wav").2
    = Ret (PStr "Unknown Track 2").
Proof.
  split.
  - destruct (resolution_total render sample_env "capture.mp3" (Some "key") 0 "/tmp/seg0.wav")
      as (q & Hq & _ & Htext & _).
    destruct (Htext (sample_schema 0)) as (s & Hs & Hne).
    exists s. rewrite Hq, Hs. split; [reflexivity | exact Hne].
  - destruct (resolution_total render sample_env "capture.mp3" (Some "key") 1 "/tmp/seg1.wav")
      as (q & Hq & _ & _ & Hnone & _).
    rewrite Hq. f_equal. apply Hnone; [reflexivity|]. left. discriminate.
Defined.


Lemma order_preservation_witness :
  length [PStr "Imagine - John Lennon"; PStr "Unknown Track 2"]
  = length (segments_of sample_pydub (recording 10000) 1200 (-40) 300)
  ∧ ∃ qs, outcome (process_file render sample_env "capture.mp3" "queries.txt"
                     (Some "key") 1200 (-40) 300 ∅) = Ret qs.
Proof.
  split.
  - destruct (proj1 (order_preservation render sample_env "capture.mp3" "queries.txt"
                       (Some "key") 1200 (-40) 300 ∅)
                [PStr "Imagine - John Lennon"; PStr "Unknown Track 2"])
      as (total & Htotal & Hlen & _); [vm_compute; reflexivity|].
    injection Htotal as <-. exact Hlen.
  - apply (proj1 (proj2 (order_preservation render sample_env "capture.mp3" "queries.txt"
                           (Some "key") 1200 (-40) 300 ∅)) 10000).
    + reflexivity.
    + intros j seg _. eexists. split; reflexivity.
    + reflexivity.
    + exact sample_schema.
Defined.


Lemma temp_files_deleted_witness :
  "/tmp/seg0.wav"
  ∈ created (process_file render sample_env "capture.mp3" "queries.txt"
               (Some "key") 1200 (-40) 300 ∅)
  ∧ unlink_fails (os sample_env) "/tmp/seg0.wav" = false
  ∧ "/tmp/seg0.wav"
    ∉ final_disk (process_file render sample_env "capture.mp3" "queries.txt"
                    (Some "key") 1200 (-40) 300 ∅).
Proof.
  assert (Hin : "/tmp/seg0.wav"
                ∈ created (process_file render sample_env "capture.mp3" "queries.txt"
                             (Some "key") 1200 (-40) 300 ∅)).
  { vm_compute. apply list_elem_of_here. }
  split; [exact Hin|]. split; [reflexivity|].
  exact (proj1 (proj2 (temp_files_deleted render sample_env "capture.mp3" "queries.txt"
                         (Some "key") 1200 (-40) 300 ∅)) _ Hin eq_refl).
Defined.

Lemma consumer_robustness_witness :
  (create_playlist_and_add_tracks sample_spotify "user" "Radio"
     ["Imagine - John Lennon"; "  "; "Unknown Track 2"; ""; "Hey Jude"]).2
  = Ret (PDict [("id", PStr "pl1"); ("name", PStr "Radio")])
  ∧ searched
      (create_playlist_and_add_tracks sample_spotify "user" "Radio"
         ["Imagine - John Lennon"; "  "; "Unknown Track 2"; ""; "Hey Jude"]).1
    = ["Imagine - John Lennon"; "Unknown Track 2"; "Hey Jude"].
Proof.
  apply (proj1 (proj2 (proj2 (proj2
           (consumer_robustness sample_spotify "user" "Radio"
              ["Imagine - John Lennon"; "  "; "Unknown Track 2"; ""; "Hey Jude"]))))).
  - reflexivity.
  - intros j q Hj _.
    destruct j as [|[|[|j]]]; [right | right | left | right]; try reflexivity.
    all: eexists _, _; split; reflexivity.
  - intros items. eexists. split; reflexivity.
Defined.

(** * Where the specification and the code part *)

(** Against C7 as worded: the first result of [untitled_first] has a
    recording, without title;
    the candidate returned is that of the second result. *)
Lemma untitled_recording_counterexample :
  extract_candidate (encode_response untitled_first)
  = Ret (Some (PStr "Hey Jude", PStr ""))
  ∧ first_with_recording untitled_first
    = Some {| rec_title := None;
              rec_artists := [ {| artist_name := Some "The Beatles" |} ] |}
  ∧ ¬ specified_extraction.
Proof.
  split; [reflexivity|]. split; [reflexivity|]. intros Hspec.
  destruct (Hspec untitled_first (PStr "Hey Jude", PStr "") eq_refl)
    as (rec & Hrec & Hmeta).
  injection Hrec as <-. discriminate Hmeta.
Qed.

(** Against C6 as worded: the tag tier resolves the candidate with an empty
    title and the
    artist "Queen" from [untitled_mutagen]; its query is the placeholder, not
    " - Queen". *)
Lemma empty_title_counterexample :
  read_tags render untitled_mutagen "capture.mp3" = Ret (Some (PStr "", PStr "Queen"))
  ∧ make_query_from_metadata render (Some (PStr "", PStr "Queen")) 0
    = PStr "Unknown Track 1"
  ∧ ¬ specified_query_format render.
Proof.
  split; [reflexivity|]. split; [reflexivity|]. intros Hspec.
  specialize (Hspec "" "Queen" 0 (Z.le_refl 0)). discriminate Hspec.
Qed.

(** C1. The claim holds of every response but those in which a title is
    not text, and there the code parts from it.  When the service gives the
    title of a recording as the number 123, the fingerprint tier returns the
    pair of that number and the empty string, the query of the segment is
    the number itself, which is no string, and the run raises [TypeError] at
    the line that adds the line break to it, after the output file was
    opened. *)
Theorem number_title_escapes :
  fingerprint_and_lookup numbered_acoustid 0 "/tmp/seg0.wav" (Some "key")
  = Ret (Some (PObj true "123", PStr ""))
  ∧ make_query_from_metadata render (Some (PObj true "123", PStr "")) 0
    = PObj true "123"
  ∧ (resolve_segment render numbered_env "capture.mp3" (Some "key") 0 "/tmp/seg0.wav").2
    = Ret (PObj true "123")
  ∧ ¬ is_text (PObj true "123")
  ∧ outcome (process_file render numbered_env "capture.mp3" "queries.txt"
               (Some "key") 1200 (-40) 300 ∅)
    = Raise TypeError
  ∧ written (process_file render numbered_env "capture.mp3" "queries.txt"
               (Some "key") 1200 (-40) 300 ∅)
    = Some [].
Proof.
  split; [reflexivity|]. split; [reflexivity|]. split; [reflexivity|].
  split; [by intros [s Hs]|]. split; vm_compute; reflexivity.
Qed.


(** Against C9 as worded: the system refuses to remove the first temporary
    file; the run returns its queries all the same, and the file is still on
    disk. *)
Lemma failed_unlink_counterexample :
  outcome (process_file render stubborn_env "capture.mp3" "queries.txt"
             (Some "key") 1200 (-40) 300 ∅)
  = Ret [PStr "Imagine - John Lennon"; PStr "Unknown Track 2"]
  ∧ created (process_file render stubborn_env "capture.mp3" "queries.txt"
               (Some "key") 1200 (-40) 300 ∅)
    = ["/tmp/seg0.wav"; "/tmp/seg1.wav"]
  ∧ final_disk (process_file render stubborn_env "capture.mp3" "queries.txt"
                  (Some "key") 1200 (-40) 300 ∅)
    = {["/tmp/seg0.wav"]}
  ∧ ¬ specified_cleanup render.
Proof.
  assert (Hdisk :
    final_disk (process_file render stubborn_env "capture.mp3" "queries.txt"
                  (Some "key") 1200 (-40) 300 ∅)
    = {["/tmp/seg0.wav"]}) by (vm_compute; reflexivity).
  split; [vm_compute; reflexivity|]. split; [vm_compute; reflexivity|].
  split; [exact Hdisk|]. intros Hspec.
  apply (Hspec stubborn_env "capture.mp3" "queries.txt" (Some "key") 1200 (-40) 300 ∅
           "/tmp/seg0.wav").
  - vm_compute. apply list_elem_of_here.
  - rewrite Hdisk. by apply elem_of_singleton.
Qed.

(** Against C10 as worded: the playlist is created, and yet the function
    raises instead of returning it, once when the connection is lost during
    the second search and once when adding the tracks found is refused. *)
Lemma unreturned_playlist_counterexample :
  user_playlist_create offline_spotify "user" "Radio"
  = Ret (PDict [("id", PStr "pl1"); ("name", PStr "Radio")])
  ∧ (create_playlist_and_add_tracks offline_spotify "user" "Radio"
       ["Imagine - John Lennon"; "Hey Jude"]).2
    = Raise OSError
  ∧ (create_playlist_and_add_tracks refused_spotify "user" "Radio"
       ["Imagine - John Lennon"; "Hey Jude"]).2
    = Raise SpotifyException
  ∧ ¬ specified_return.
Proof.
  split; [reflexivity|]. split; [reflexivity|]. split; [reflexivity|].
  intros Hspec.
  specialize (Hspec offline_spotify "user" "Radio" ["Imagine - John Lennon"; "Hey Jude"]
                _ eq_refl).
  discriminate Hspec.
Qed.

(** * The further properties on the samples *)

Lemma unsequenced_response_unmatched_witness :
  fingerprint_and_lookup dict_acoustid 0 "/tmp/seg0.wav" (Some "key") = Ret None.
Proof.
  apply unsequenced_response_unmatched.
  intros secret fp duration results [= <-]. exact I.
Defined.

Lemma malformed_result_ends_scan_witness :
  extract_candidate
    (PList ([encode_result {| res_recordings := [] |}]
            ++ PStr "rate limited" :: [encode_result {| res_recordings := [imagine] |}]))
  = Ret None.
Proof.
  apply malformed_result_ends_scan; [|reflexivity].
  constructor; [reflexivity | constructor].
Defined.

Lemma segment_encloses_span_witness :
  ∃ seg,
    split_on_silence sample_pydub (recording 10000) 1200 (-40) 300 !! 1%nat = Some seg
    ∧ start_ms seg ≤ 5500 ∧ 10000 ≤ end_ms seg
    ∧ start_ms seg ≤ end_ms seg
    ∧ end_ms seg - start_ms seg ≤ (10000 - 5500) + 2 * 300.
Proof.
  apply (segment_encloses_span sample_pydub 10000 1200 (-40) 300 1 5500 10000);
    [reflexivity | lia | lia | lia | lia].
Defined.

Lemma segments_disjoint_iff_gap_witness :
  4300 ≤ 5200 ↔ 4000 + 2 * 300 ≤ 5500.
Proof.
  apply (segments_disjoint_iff_gap sample_pydub 10000 1200 (-40) 300 0 1
           0 4000 5500 10000
           {| start_ms := 0; end_ms := 4300 |} {| start_ms := 5200; end_ms := 10000 |});
    [reflexivity | reflexivity | reflexivity | reflexivity | lia | lia | lia | lia].
Defined.

Lemma no_key_no_fingerprint_witness :
  CallFingerprint "/tmp/seg0.wav"
  ∉ trace (process_file render sample_env "capture.mp3" "queries.txt" None
             1200 (-40) 300 ∅).
Proof.
  apply (proj1 (no_key_no_fingerprint render sample_env "capture.mp3" "queries.txt" None
                  1200 (-40) 300 ∅ eq_refl)).
Defined.

Lemma tags_read_at_most_once_witness :
  (length (List.filter is_read_tags
             (trace (process_file render sample_env "capture.mp3" "queries.txt" None
                       1200 (-40) 300 ∅))) ≤ 1)%nat.
Proof.
  apply (proj1 (tags_read_at_most_once render sample_env "capture.mp3" "queries.txt" None
                  1200 (-40) 300 ∅)).
Defined.

Lemma output_opened_after_loop_witness :
  ∃ lines,
    written (process_file render sample_env "capture.mp3" "queries.txt" (Some "key")
               1200 (-40) 300 ∅) = Some lines
    ∧ length lines = 2%nat.
Proof.
  apply (proj2 (proj2 (proj2
           (output_opened_after_loop render sample_env "capture.mp3" "queries.txt"
              (Some "key") 1200 (-40) 300 ∅)))
           [PStr "Imagine - John Lennon"; PStr "Unknown Track 2"]).
  vm_compute. reflexivity.
Defined.

Lemma id3_frames_take_precedence_witness :
  read_tags render id3_mutagen "capture.mp3"
  = Ret (Some (PStr "Bohemian Rhapsody", PStr "Queen")).
Proof.
  apply (proj1 (id3_frames_take_precedence render id3_mutagen "capture.mp3" _ _
                  eq_refl eq_refl eq_refl)
           (PObj true "Bohemian Rhapsody") (PObj true "Queen"));
    [reflexivity | reflexivity | discriminate | discriminate].
Defined.

Lemma main_exit_codes_witness :
  exit_code (main render sample_env (fun _ => false) sample_args ∅) = Ret 2
  ∧ processed (main render sample_env (fun _ => false) sample_args ∅) = None
  ∧ printed (main render sample_env (fun _ => false) sample_args ∅) = [].
Proof.
  apply (proj1 (main_exit_codes render sample_env (fun _ => false) sample_args ∅)).
  reflexivity.
Defined.

Lemma added_items_witness :
  create_playlist_and_add_tracks sample_spotify "user" "Radio"
    ["Imagine - John Lennon"; "  "; "Unknown Track 2"; ""; "Hey Jude"]
  = ([ApiCreate "user" "Radio"; ApiSearch "Imagine - John Lennon";
      ApiSearch "Unknown Track 2"; ApiSearch "Hey Jude";
      ApiAddItems (PStr "pl1") [PStr "spotify:track:1"]],
     Ret (PDict [("id", PStr "pl1"); ("name", PStr "Radio")])).
Proof.
  rewrite (proj2 (added_items sample_spotify "user" "Radio"
                    ["Imagine - John Lennon"; "  "; "Unknown Track 2"; ""; "Hey Jude"]
                    (PDict [("id", PStr "pl1"); ("name", PStr "Radio")]) eq_refl
                    ltac:(intros j q Hj _;
                          destruct j as [|[|[|j]]]; [right | right | left | right];
                          try reflexivity; eexists _, _; split; reflexivity))
             ltac:(discriminate) (PStr "pl1") eq_refl).
  reflexivity.
Defined.

Lemma broken_search_adds_nothing_witness :
  create_playlist_and_add_tracks broken_spotify "user" "Radio"
    ["Imagine - John Lennon"; "Hey Jude"; "Yesterday"]
  = ([ApiCreate "user" "Radio"; ApiSearch "Imagine - John Lennon"; ApiSearch "Hey Jude"],
     Raise OSError).
Proof.
  apply (broken_search_adds_nothing broken_spotify "user" "Radio"
           ["Imagine - John Lennon"; "Hey Jude"; "Yesterday"]
           (PDict [("id", PStr "pl1"); ("name", PStr "Radio")]) 1 "Hey Jude" OSError).
  - reflexivity.
  - intros j' q' Hlt Hj' _. destruct j' as [|j']; [|lia].
    right. eexists _, _. split; reflexivity.
  - reflexivity.
  - reflexivity.
  - left. split; [reflexivity | discriminate].
Defined.

Lemma resolved_queries_are_searched_witness :
  "Unknown Track 2"
  ∈ searched (create_playlist_and_add_tracks sample_spotify "user" "Radio"
                ["Imagine - John Lennon"; "Unknown Track 2"]).1.
Proof.
  apply (resolved_queries_are_searched render sample_spotify "user" "Radio"
           ["Imagine - John Lennon"; "Unknown Track 2"]
           (PDict [("id", PStr "pl1"); ("name", PStr "Radio")]) None 1 "Unknown Track 2").
  - reflexivity.
  - intros j q Hj _. destruct j as [|[|j]]; [right | right | discriminate];
      eexists _, _; split; reflexivity.
  - by left.
  - reflexivity.
  - apply list_elem_of_further, list_elem_of_here.
Defined.

Lemma shazam_lines_clean_witness :
  ∃ lines,
    run_shazam_cli sample_host "shazamcli" "capture.mp3" = Ret lines
    ∧ lines = py_strip <$> filter (fun l => is_blank l = false) (py_splitlines sample_stdout)
    ∧ ∀ l, l ∈ lines →
           l ≠ "" ∧ py_strip l = l ∧ is_blank l = false ∧ has_linebreak l = false.
Proof.
  apply (proj2 (shazam_lines_clean sample_host "shazamcli" "capture.mp3"
                  {| returncode := 0; stdout := sample_stdout; stderr := "" |} eq_refl)).
  reflexivity.
Defined.

Lemma built_path_is_located_path_witness :
  "/Users/dj/radio/tools/shazam_cli/.build/release/shazamcli"
  = os_path_join "/Users/dj/radio" ["tools"; "shazam_cli"; ".build"; "release"; "shazamcli"]
  ∧ path_exists_built sample_host
      "/Users/dj/radio/tools/shazam_cli/.build/release/shazamcli" = true
  ∧ swift_build sample_host (os_path_join "/Users/dj/radio" ["tools"; "shazam_cli"]) = Ret ().
Proof.
  apply (proj1 (built_path_is_located_path sample_host "/Users/dj/radio")).
  reflexivity.
Defined.

Lemma shazam_main_exit_codes_witness :
  sh_written (shazam_main sample_host
                {| sh_input := "capture.mp3"; sh_output := "queries.txt";
                   sh_rebuild := false |}) ≠ None.
Proof.
  apply (proj1 (proj2 (proj2 (shazam_main_exit_codes sample_host
           {| sh_input := "capture.mp3"; sh_output := "queries.txt";
              sh_rebuild := false |})))).
  reflexivity.
Defined.

Lemma shazam_lines_all_searched_witness :
  searched (create_playlist_and_add_tracks sample_spotify "user" "Radio"
              ["Imagine - John Lennon"; "Hey Jude - The Beatles"]).1
  = ["Imagine - John Lennon"; "Hey Jude - The Beatles"].
Proof.
  apply (shazam_lines_all_searched sample_host "shazamcli" "capture.mp3"
           ["Imagine - John Lennon"; "Hey Jude - The Beatles"]
           sample_spotify "user" "Radio"
           (PDict [("id", PStr "pl1"); ("name", PStr "Radio")])).
  - reflexivity.
  - reflexivity.
  - intros j q Hj. destruct j as [|[|j]]; [right | right | discriminate];
      eexists _, _; split; reflexivity.
Defined.

Lemma one_export_per_segment_witness :
  length (created (process_file render sample_env "capture.mp3" "queries.txt"
                     (Some "key") 1200 (-40) 300 ∅)) = 2%nat
  ∧ List.filter (fun c => negb (is_read_tags c))
      (trace (process_file render sample_env "capture.mp3" "queries.txt"
                (Some "key") 1200 (-40) 300 ∅))
    = CallFingerprint
      <$> created (process_file render sample_env "capture.mp3" "queries.txt"
                     (Some "key") 1200 (-40) 300 ∅).
Proof.
  apply (one_export_per_segment render sample_env "capture.mp3" "queries.txt"
           (Some "key") 1200 (-40) 300 ∅
           [PStr "Imagine - John Lennon"; PStr "Unknown Track 2"]).
  vm_compute. reflexivity.
Defined.
